(** * ollama_rag_blog: ingestion and query scripts over a persistent vector store

    A shallow embedding of [rag_ingestion.py] and [query_rag.py].  The two
    scripts are orchestration code: they test and wipe directories, open a
    Chroma collection, call the document loader, the index and the query
    engine, and drive a terminal chat loop.  The embedding keeps that shape:

    - the file system is a finite map from paths to directories, a directory
      holding plain files and the collections of a Chroma database;
    - Python control flow (exceptions, [sys.exit], [try]/[except]) is an
      error monad over a state made of the file system, an identifier
      supply and the stream of output events;
    - the external collaborators (loader, node parser, embedding model,
      similarity, language model) are the fields of a type class. *)

From Stdlib Require Import ZArith Ascii String List.
From stdpp Require Import base option list gmap strings pretty.

Local Open Scope Z_scope.

(** ** Python text primitives: [str.lower], [str.strip], truthiness

    A line of the terminal is ASCII text; the primitives are those of
    [str] on that range, and leave any other character alone.  Python's
    own also fold the case of letters beyond ASCII and take U+0085, U+00A0
    and the other Unicode spaces for white space: what is stated of a
    line through these primitives is stated of an ASCII line. *)

Module Str.

(** The newline character, written [\n] in the Python sources. *)
Definition nl : string := String (ascii_of_nat 10) EmptyString.

(** [c.lower()] on the ASCII range: [A]..[Z] (65..90) move down by 32. *)
Definition lower_char (c : ascii) : ascii :=
  let n := nat_of_ascii c in
  if (Nat.leb 65 n && Nat.leb n 90)%bool then ascii_of_nat (n + 32) else c.

Fixpoint lower (s : string) : string :=
  match s with
  | EmptyString => EmptyString
  | String c s' => String (lower_char c) (lower s')
  end.

(** [c.isspace()] on the ASCII range: TAB, LF, VT, FF, CR, the four
    separators FS, GS, RS, US, and the blank. *)
Definition isspace (c : ascii) : bool :=
  let n := nat_of_ascii c in
  ((Nat.leb 9 n && Nat.leb n 13) || (Nat.leb 28 n && Nat.leb n 32))%bool.

Fixpoint lstrip (s : string) : string :=
  match s with
  | EmptyString => EmptyString
  | String c s' => if isspace c then lstrip s' else s
  end.

(** [rstrip] drops the trailing run of white space: a character is kept
    when it is not white space or when something is kept after it. *)
Fixpoint rstrip (s : string) : string :=
  match s with
  | EmptyString => EmptyString
  | String c s' =>
      match rstrip s' with
      | EmptyString => if isspace c then EmptyString else String c EmptyString
      | r => String c r
      end
  end.

Definition strip (s : string) : string := rstrip (lstrip s).

(** Truthiness of a [str]: the empty string is false. *)
Definition truthy (s : string) : bool :=
  match s with EmptyString => false | String _ _ => true end.

(** [x in [a, b, ...]] for strings. *)
Definition mem (x : string) (l : list string) : bool :=
  existsb (String.eqb x) l.

(** *** Matching without regard to case, stated apart from [lower] *)

(** [c.upper()] on the ASCII range: [a]..[z] (97..122) move up by 32. *)
Definition upper_char (c : ascii) : ascii :=
  let n := nat_of_ascii c in
  if (Nat.leb 97 n && Nat.leb n 122)%bool then ascii_of_nat (n - 32) else c.

(** Two characters are the same letter when they are equal or one is the
    upper-case form of the other. *)
Definition same_letter (a b : ascii) : Prop :=
  a = b \/ a = upper_char b \/ b = upper_char a.

(** Two strings match case-insensitively when they have the same length
    and the same letters, position by position. *)
Inductive eq_ignoring_case : string -> string -> Prop :=
  | eic_nil : eq_ignoring_case EmptyString EmptyString
  | eic_cons (a b : ascii) (s t : string) :
      same_letter a b -> eq_ignoring_case s t ->
      eq_ignoring_case (String a s) (String b t).

(** A string made of white space only. *)
Fixpoint all_space (s : string) : bool :=
  match s with
  | EmptyString => true
  | String c s' => (isspace c && all_space s')%bool
  end.

(** A string with no white space in it. *)
Fixpoint no_space (s : string) : bool :=
  match s with
  | EmptyString => true
  | String c s' => (negb (isspace c) && no_space s')%bool
  end.

End Str.

(** ** Exceptions, output events and the process state *)

(** The exception classes the two scripts raise, catch or let through.
    [RuntimeError] stands for any other subclass of [Exception]. *)
Inductive PyExc : Type :=
  | EOFError
  | KeyboardInterrupt
  | SystemExit (code : Z)
  | ValueError (msg : string)
  | TypeError (msg : string)
  | RuntimeError (msg : string).

(** [isinstance(e, Exception)]: [KeyboardInterrupt] and [SystemExit] derive
    from [BaseException] only. *)
Definition is_Exception (e : PyExc) : bool :=
  match e with
  | KeyboardInterrupt | SystemExit _ => false
  | _ => true
  end.

Definition isinstance_ValueError (e : PyExc) : bool :=
  match e with ValueError _ => true | _ => false end.

(** [str(e)] as the f-strings of the handlers render it. *)
Definition str_exc (e : PyExc) : string :=
  match e with
  | EOFError | KeyboardInterrupt => EmptyString
  | SystemExit c => pretty c
  | ValueError m | TypeError m | RuntimeError m => m
  end.

(** What a run leaves on the terminal and which collaborator it called. *)
Inductive Event : Type :=
  | PrintLine (line : string)      (* print(line) *)
  | WriteText (text : string)      (* print(text, end=...) without newline, and the prompt of input() *)
  | PrintElapsed                   (* the "Response time" line; the clock is not modelled *)
  | Traceback (e : PyExc)          (* a stack trace on stderr *)
  | EmbedCall (text : string)      (* a request to the embedding model *)
  | LlmCall (prompt : string).     (* a request to the language model *)

(** A file of the source directory. *)
Record File : Type := { file_name : string; file_bytes : string }.

(** ** External collaborators *)

(** A lazily produced token sequence: the tokens delivered, then either the
    normal end of the stream or the exception that cut it short. *)
Definition TokenStream : Type := (list string * option PyExc)%type.

(** Modelled from the spec: the loader, the node parser of the index, the
    embedding provider, the similarity of the vector store and the language
    model are libraries and services outside the repository; sections 2, 3
    and 6 of the specification give their interfaces.  Their computations
    are left open. *)
Class Collaborators : Type := {
  Vector : Type;
  Score : Type;
  (** Document Loader: the text documents one file yields; none for a file
      it cannot read. *)
  read_file : File -> list string;
  (** Node parser of the index: the chunks a document body is stored as. *)
  split_text : string -> list string;
  (** Embedding Provider, [embed(text) -> vector]; the service may fail. *)
  embed : string -> PyExc + Vector;
  (** Similarity of two vectors and the order used to rank by it. *)
  similarity : Vector -> Vector -> Score;
  score_leb : Score -> Score -> bool;
  (** [f"{score:.4f}"]. *)
  fmt_score : Score -> string;
  (** Language Model Provider, [generate(prompt, stream=True)]. *)
  generate : string -> TokenStream
}.

Section Model.

Context `{C : Collaborators}.

(** A Document: identifier, text body, metadata mapping. *)
Record Document : Type := {
  doc_id : nat;
  doc_text : string;
  doc_metadata : gmap string string
}.

(** A Vector Store Entry. *)
Record Entry : Type := {
  entry_id : nat;
  entry_vector : Vector;
  entry_text : string;
  entry_metadata : gmap string string
}.

(** A directory: its plain files and, when a Chroma client has been opened
    on it, the collections of the database, by name.  The files in which
    Chroma keeps the database ([chroma.sqlite3] and the segment
    directories) are not listed among [dir_files]: they are what
    [dir_collections] stands for, and a directory without a database and
    one whose database has no collection are the same value.
    Sub-directories are not modelled. *)
Record Directory : Type := {
  dir_files : list File;
  dir_collections : gmap string (list Entry)
}.

Definition empty_directory : Directory :=
  {| dir_files := []; dir_collections := ∅ |}.

(** The process state: the file system by path, the supply of fresh
    identifiers (the uuid4 of documents and nodes) and the output so far.
    The lines of the terminal are an argument of the chat loop. *)
Record State : Type := {
  fs : gmap string Directory;
  uuid : nat;
  out : list Event
}.

Definition with_fs (f : gmap string Directory -> gmap string Directory)
    (s : State) : State :=
  {| fs := f (fs s); uuid := uuid s; out := out s |}.

Definition with_out (e : Event) (s : State) : State :=
  {| fs := fs s; uuid := uuid s; out := out s ++ [e] |}.

(** ** The monad of Python statements *)

Definition M (A : Type) : Type := State -> (PyExc + A) * State.

#[export] Instance M_ret : MRet M := fun A (a : A) s => (inr a, s).

#[export] Instance M_bind : MBind M := fun A B (f : A -> M B) (m : M A) s =>
  match m s with
  | (inr a, s') => f a s'
  | (inl e, s') => (inl e, s')
  end.

Definition raise {A : Type} (e : PyExc) : M A := fun s => (inl e, s).

(** [try: body except <handles>: handler]: an exception the clause list
    does not take (the handler answers [None]) goes on to the caller. *)
Definition try_except {A : Type} (body : M A) (handler : PyExc -> option (M A))
    : M A := fun s =>
  match body s with
  | (inr a, s') => (inr a, s')
  | (inl e, s') =>
      match handler e with
      | Some h => h s'
      | None => (inl e, s')
      end
  end.

Definition emit (e : Event) : M unit := fun s => (inr tt, with_out e s).
Definition print (line : string) : M unit := emit (PrintLine line).
Definition sys_exit {A : Type} (code : Z) : M A := raise (SystemExit code).
Definition get_state : M State := fun s => (inr s, s).
Definition modify_fs (f : gmap string Directory -> gmap string Directory)
    : M unit := fun s => (inr tt, with_fs f s).

(** A statement only adds to the output. *)
Definition appends {A : Type} (m : M A) : Prop :=
  ∀ s, ∃ evs, out (m s).2 = out s ++ evs.

(** A fresh identifier. *)
Definition uuid4 : M nat := fun s =>
  (inr (uuid s), {| fs := fs s; uuid := S (uuid s); out := out s |}).

(** The exit status of the interpreter: 0 when the script ends, the code
    of [sys.exit], and 1 with a stack trace for any exception nobody
    caught. *)
Definition run_script (script : M unit) (s : State) : Z * State :=
  match script s with
  | (inr _, s') => (0, s')
  | (inl (SystemExit c), s') => (c, s')
  | (inl e, s') => (1, with_out (Traceback e) s')
  end.

(** ** File-system and Chroma primitives *)

Definition os_path_exists (path : string) : M bool :=
  s ← get_state; mret (bool_decide (is_Some (fs s !! path))).

(** [os.listdir(path)]: the names of the directory's files. *)
Definition os_listdir (path : string) : M (list string) :=
  s ← get_state;
  match fs s !! path with
  | Some d => mret (file_name <$> dir_files d)
  | None => raise (RuntimeError ("No such file or directory: " +:+ path))
  end.

(** [shutil.rmtree(path)]: the directory goes with all it holds. *)
Definition shutil_rmtree (path : string) : M unit :=
  modify_fs (delete path).

(** [os.makedirs(path, exist_ok=True)]. *)
Definition os_makedirs (path : string) : M unit :=
  modify_fs (fun m => match m !! path with
                      | Some _ => m
                      | None => <[path := empty_directory]> m
                      end).

(** [chromadb.PersistentClient(path=path)]: the client is known by its
    path; the directory is created when it is not there.  On a directory
    that has no database yet the library creates an empty one; with the
    database files left out of [dir_files] that is no change of the
    directory value. *)
Definition PersistentClient (path : string) : M string :=
  os_makedirs path;; mret path.

Definition set_collection (name : string) (es : list Entry) (d : Directory)
    : Directory :=
  {| dir_files := dir_files d;
     dir_collections := <[name := es]> (dir_collections d) |}.

(** [db.get_or_create_collection(name)]: a collection handle is the pair
    of the client's path and the name. *)
Definition get_or_create_collection (db name : string) : M (string * string) :=
  modify_fs (fun m =>
    match m !! db with
    | Some d =>
        match dir_collections d !! name with
        | Some _ => m
        | None => <[db := set_collection name [] d]> m
        end
    | None => m
    end);;
  mret (db, name).

(** [db.get_collection(name)] raises when the collection is absent.  The
    class and the wording of the library's exception are fixed here to
    one choice; the script takes any [Exception] and prints its text
    after its own words. *)
Definition get_collection (db name : string) : M (string * string) :=
  s ← get_state;
  match fs s !! db ≫= (fun d => dir_collections d !! name) with
  | Some _ => mret (db, name)
  | None => raise (ValueError ("Collection " +:+ name +:+ " does not exist."))
  end.

(** The entries of a collection as they are on disk now. *)
Definition collection_entries (s : State) (h : string * string)
    : option (list Entry) :=
  fs s !! h.1 ≫= (fun d => dir_collections d !! h.2).

End Model.

(** ** The loader and the index, as the scripts call them *)

Section Library.

Context `{C : Collaborators}.

(** [for x in xs: f(x)], collecting the results. *)
Fixpoint for_each {A B : Type} (f : A -> M B) (xs : list A) : M (list B) :=
  match xs with
  | [] => mret []
  | x :: xs' => y ← f x; ys ← for_each f xs'; mret (y :: ys)
  end.

(** The documents of one file: each carries the file name. *)
Definition documents_of_file (f : File) : M (list Document) :=
  for_each (fun body =>
      i ← uuid4;
      mret {| doc_id := i; doc_text := body;
              doc_metadata := {[ "file_name" := file_name f ]} |})
    (read_file f).

(** A hidden file: its name starts with a dot.  [os.listdir] lists it, the
    loader passes it over. *)
Definition is_hidden (f : File) : bool :=
  match file_name f with
  | String "." _ => true
  | _ => false
  end.

(** The files the loader takes from a directory listing. *)
Definition visible (files : list File) : list File :=
  List.filter (fun f => negb (is_hidden f)) files.

(** Modelled from the spec: [SimpleDirectoryReader(path).load_data()], the
    Document Loader of section 2.  It reads the files of the directory,
    hidden ones apart, into a sequence of documents, and raises
    [ValueError] when the directory is missing or when it finds no file
    to read; the wording of the two messages is the library's and is
    fixed here to one choice. *)
Definition SimpleDirectoryReader_load_data (path : string) : M (list Document) :=
  s ← get_state;
  match fs s !! path with
  | None => raise (ValueError ("Directory " +:+ path +:+ " does not exist."))
  | Some d =>
      match visible (dir_files d) with
      | [] => raise (ValueError ("No files found in " +:+ path +:+ "."))
      | files => dss ← for_each documents_of_file files; mret (concat dss)
      end
  end.

(** The nodes of a document: one per chunk of the node parser, with the
    metadata of the document. *)
Definition nodes_of_document (d : Document) : list (string * gmap string string) :=
  (fun chunk => (chunk, doc_metadata d)) <$> split_text (doc_text d).

(** One node becomes one entry: its text is embedded and it gets a fresh
    identifier. *)
Definition embed_node (n : string * gmap string string) : M Entry :=
  emit (EmbedCall n.1);;
  match embed n.1 with
  | inl e => raise e
  | inr v =>
      i ← uuid4;
      mret {| entry_id := i; entry_vector := v;
              entry_text := n.1; entry_metadata := n.2 |}
  end.

(** [collection.add(...)]: the entries are appended to the collection. *)
Definition collection_add (h : string * string) (es : list Entry) : M unit :=
  s ← get_state;
  match fs s !! h.1 with
  | Some d =>
      match dir_collections d !! h.2 with
      | Some old => modify_fs <[h.1 := set_collection h.2 (old ++ es) d]>
      | None => raise (ValueError ("Collection " +:+ h.2 +:+ " does not exist."))
      end
  | None => raise (ValueError ("Collection " +:+ h.2 +:+ " does not exist."))
  end.

(** Modelled from the spec: [VectorStoreIndex.from_documents(documents,
    storage_context)], the add-documents operation of the Index of
    section 2: the documents are parsed into nodes, every node is embedded,
    and the entries are written to the collection.  The index is known by
    the collection it wraps. *)
Definition VectorStoreIndex_from_documents (documents : list Document)
    (vector_store : string * string) : M (string * string) :=
  es ← for_each embed_node (concat (nodes_of_document <$> documents));
  collection_add vector_store es;;
  mret vector_store.

End Library.

(** ** [rag_ingestion.py] *)

Module RagIngestion.
Section Script.

Context `{C : Collaborators}.

Definition PERSIST_DIR : string := "./chroma_db".
Definition COLLECTION_NAME : string := "survival_docs".
Definition DATA_DIR : string := "./survival_docs".
Definition LLM_MODEL_NAME : string := "qwen3:8b-q4_K_M".
Definition EMBEDDING_MODEL_NAME : string := "nomic-embed-text:137m-v1.5-fp16".

Definition setup_llm_and_embed_models : M unit :=
  print ("Setting LLM model: " +:+ LLM_MODEL_NAME);;
  print ("Setting embedding model: " +:+ EMBEDDING_MODEL_NAME);;
  print "LLM and embedding models set.".

Definition initialize_vector_store : M (string * string) :=
  ex ← os_path_exists PERSIST_DIR;
  (if ex : bool
   then print ("Wiping previous database at " +:+ PERSIST_DIR);;
        shutil_rmtree PERSIST_DIR
   else mret tt);;
  os_makedirs PERSIST_DIR;;
  print ("Initializing ChromaDB client at " +:+ PERSIST_DIR +:+ "...");;
  db ← PersistentClient PERSIST_DIR;
  print ("Getting or creating Chroma collection: " +:+ COLLECTION_NAME);;
  chroma_collection ← get_or_create_collection db COLLECTION_NAME;
  print "ChromaDB vector store initialized.";;
  mret chroma_collection.

(** [not documents], [not os.listdir(...)]: an empty list is false. *)
Definition is_nil {A : Type} (l : list A) : bool :=
  match l with [] => true | _ => false end.

Definition load_documents : M (list Document) :=
  ex ← os_path_exists DATA_DIR;
  missing_or_empty ←
    (if negb ex then mret true
     else names ← os_listdir DATA_DIR; mret (is_nil names));
  if missing_or_empty : bool then
    print ("ERROR: Data directory '" +:+ DATA_DIR +:+ "' is missing or empty.");;
    print "Please create it and add your documents.";;
    sys_exit 1
  else
    print ("Loading documents from " +:+ DATA_DIR +:+ "...");;
    try_except
      (documents ← SimpleDirectoryReader_load_data DATA_DIR;
       if is_nil documents then
         print ("No documents found in " +:+ DATA_DIR
                +:+ ". Please add some text files.");;
         sys_exit 1
       else
         print ("Loaded " +:+ pretty (length documents) +:+ " document(s).");;
         mret documents)
      (fun e =>
         if isinstance_ValueError e then Some (
           print ("Error loading documents: " +:+ str_exc e);;
           print ("Please ensure '" +:+ DATA_DIR
                  +:+ "' exists and contains readable files.");;
           sys_exit 1)
         else None).

Definition ingest_documents (documents : list Document)
    (vector_store : string * string) : M (string * string) :=
  print "Creating index and ingesting documents into ChromaDB...";;
  index ← VectorStoreIndex_from_documents documents vector_store;
  print "Index created and documents ingested successfully.";;
  mret index.

Definition main : M unit :=
  print "--- Starting RAG Ingestion Process ---";;
  setup_llm_and_embed_models;;
  vector_store ← initialize_vector_store;
  documents ← load_documents;
  ingest_documents documents vector_store;;
  print "--- RAG Ingestion Process Complete ---";;
  print ("Data ingested into ChromaDB at " +:+ PERSIST_DIR
         +:+ " using collection '" +:+ COLLECTION_NAME +:+ "'.");;
  print "You can now run query_rag.py to chat with your documents.".

(** The persistence directory with nothing in it but the configured
    collection, holding [es]. *)
Definition store_of (es : list Entry) : Directory :=
  {| dir_files := []; dir_collections := {[ COLLECTION_NAME := es ]} |}.

(** The store as [initialize_vector_store] leaves it. *)
Definition fresh_store : Directory := store_of [].

(** What [main] prints before it touches the store. *)
Definition start_log : list Event :=
  [PrintLine "--- Starting RAG Ingestion Process ---";
   PrintLine "Setting LLM model: qwen3:8b-q4_K_M";
   PrintLine "Setting embedding model: nomic-embed-text:137m-v1.5-fp16";
   PrintLine "LLM and embedding models set."].

(** What [initialize_vector_store] prints; [existed] tells whether the
    persistence directory was there. *)
Definition wipe_log (existed : bool) : list Event :=
  (if existed then [PrintLine "Wiping previous database at ./chroma_db"] else [])
  ++ [PrintLine "Initializing ChromaDB client at ./chroma_db...";
      PrintLine "Getting or creating Chroma collection: survival_docs";
      PrintLine "ChromaDB vector store initialized."].

(** The diagnostic of the fail-fast check of [load_documents]. *)
Definition data_dir_diagnostic : list Event :=
  [PrintLine "ERROR: Data directory './survival_docs' is missing or empty.";
   PrintLine "Please create it and add your documents."].

(** What [load_documents] prints when the loader raises [ValueError] with
    the message [msg]. *)
Definition loader_error_log (msg : string) : list Event :=
  [PrintLine "Loading documents from ./survival_docs...";
   PrintLine ("Error loading documents: " +:+ msg);
   PrintLine "Please ensure './survival_docs' exists and contains readable files."].

(** The source directory is missing or empty. *)
Definition data_dir_missing_or_empty (s : State) : Prop :=
  match fs s !! DATA_DIR with
  | None => True
  | Some d => dir_files d = []
  end.

End Script.
End RagIngestion.

(** ** The query engine, as [query_rag.py] calls it *)

Section Engine.

Context `{C : Collaborators}.

(** A Retrieved Source Node. *)
Record NodeWithScore : Type := {
  node_id : nat;
  node_score : option Score;
  node_metadata : option (gmap string string);
  node_text : string
}.

(** What [query_engine.query] returns: a streaming response has a
    [response_gen], a plain one has (or lacks) a [response] text. *)
Inductive Response : Type :=
  | StreamingResponse (response_gen : TokenStream)
                      (nodes : list NodeWithScore)
  | PlainResponse (response : option string) (nodes : list NodeWithScore).

Definition source_nodes (r : Response) : list NodeWithScore :=
  match r with
  | StreamingResponse _ ns | PlainResponse _ ns => ns
  end.

(** The options [index.as_query_engine] receives. *)
Record QueryEngine : Type := {
  engine_index : string * string;
  similarity_top_k : nat;
  text_qa_template : string -> string -> string;
  streaming : bool
}.

Definition scored (qv : Vector) (e : Entry) : Score * Entry :=
  (similarity qv (entry_vector e), e).

(** Ranking by descending score; among equal scores the stored order is
    kept. *)
Fixpoint insert_ranked (x : Score * Entry) (l : list (Score * Entry))
    : list (Score * Entry) :=
  match l with
  | [] => [x]
  | y :: l' =>
      if score_leb x.1 y.1 then y :: insert_ranked x l' else x :: l
  end.

Definition rank (l : list (Score * Entry)) : list (Score * Entry) :=
  foldr insert_ranked [] l.

Definition node_of (se : Score * Entry) : NodeWithScore :=
  {| node_id := entry_id se.2;
     node_score := Some se.1;
     node_metadata := Some (entry_metadata se.2);
     node_text := entry_text se.2 |}.

(** Modelled from the spec: top-k retrieval (section 4.2 (b) and the
    glossary): the [k] entries with the highest similarity to the query
    vector, ranked by descending score. *)
Definition retrieve (k : nat) (qv : Vector) (es : list Entry)
    : list NodeWithScore :=
  node_of <$> take k (rank (scored qv <$> es)).

(** The retrieved texts, concatenated, fill the context slot. *)
Definition context_str (ns : list NodeWithScore) : string :=
  String.concat (Str.nl +:+ Str.nl) (node_text <$> ns).

(** Modelled from the spec: [query_engine.query(text)], section 4.2 (b) to
    (e): the query is embedded, the nearest entries are retrieved from the
    collection, the template is rendered with them and the raw user
    string, and the prompt goes to the language model; with [streaming]
    the tokens are handed over as a stream. *)
Definition query_engine_query (qe : QueryEngine) (text : string) : M Response :=
  emit (EmbedCall text);;
  match embed text with
  | inl e => raise e
  | inr qv =>
      s ← get_state;
      match collection_entries s (engine_index qe) with
      | None =>
          raise (ValueError ("Collection " +:+ (engine_index qe).2
                             +:+ " does not exist."))
      | Some es =>
          let ns := retrieve (similarity_top_k qe) qv es in
          let prompt := text_qa_template qe (context_str ns) text in
          emit (LlmCall prompt);;
          if streaming qe then mret (StreamingResponse (generate prompt) ns)
          else
            match generate prompt with
            | (tokens, None) =>
                mret (PlainResponse (Some (String.concat EmptyString tokens)) ns)
            | (_, Some e) => raise e
            end
      end
  end.

End Engine.

(** ** [query_rag.py] *)

(** What the terminal delivers to one [input()] call.  A line may come
    with an interrupt that the user sends while the line is being
    answered: as the query starts, or once [n] tokens have been printed
    (at the end of the stream when it is shorter). *)
Inductive Interrupt : Type :=
  | NoInterrupt
  | DuringQuery
  | DuringStream (n : nat).

Inductive Input : Type :=
  | Line (text : string) (sigint : Interrupt)
  | CtrlC.

(** How an iteration of [while True] ends. *)
Inductive LoopCtl : Type := Continue | Break.

Module QueryRag.
Section Script.

Context `{C : Collaborators}.

Definition PERSIST_DIR : string := "./chroma_db".
Definition LLM_MODEL_NAME : string := "qwen3:8b-q4_K_M".
Definition EMBEDDING_MODEL_NAME : string := "nomic-embed-text:137m-v1.5-fp16".
Definition COLLECTION_NAME : string := "survival_docs".

(** [SYSTEM_PROMPT_RAG] with its two slots filled. *)
Definition SYSTEM_PROMPT_RAG (context_str query_str : string) : string :=
  Str.nl
  +:+ "You are an expert offline survival assistant. Use the provided context information" +:+ Str.nl
  +:+ "to answer the user's question accurately and concisely based on the context." +:+ Str.nl
  +:+ "Prioritize the information provided in the context above all else." +:+ Str.nl
  +:+ Str.nl
  +:+ "# Context:" +:+ Str.nl
  +:+ context_str +:+ Str.nl
  +:+ Str.nl
  +:+ "# User Question: " +:+ query_str +:+ Str.nl
  +:+ Str.nl
  +:+ "# Answer:" +:+ Str.nl.

Definition setup_llm_and_embed_models : M unit :=
  print ("Setting LLM model: " +:+ LLM_MODEL_NAME);;
  print ("Setting embedding model: " +:+ EMBEDDING_MODEL_NAME);;
  print "LLM and embedding models set.".

Definition load_vector_store_and_index : M (string * string) :=
  ex ← os_path_exists PERSIST_DIR;
  (if negb ex then
     print ("ERROR: ChromaDB persistence directory '" +:+ PERSIST_DIR
            +:+ "' not found.");;
     print "Please run the rag_ingestion.py script first to create and populate the database.";;
     sys_exit 1
   else mret tt);;
  print ("Loading ChromaDB client from " +:+ PERSIST_DIR +:+ "...");;
  db ← PersistentClient PERSIST_DIR;
  print ("Getting Chroma collection: " +:+ COLLECTION_NAME);;
  chroma_collection ←
    try_except (get_collection db COLLECTION_NAME)
      (fun e =>
         if is_Exception e then Some (
           print ("Error getting collection '" +:+ COLLECTION_NAME +:+ "': "
                  +:+ str_exc e);;
           print "Ensure the collection was created by rag_ingestion.py.";;
           sys_exit 1)
         else None);
  print "Loading index from vector store...";;
  print "Index loaded successfully from ChromaDB.";;
  mret chroma_collection.

(** Lines 69-80.  [index.as_query_engine] is library code: building the
    engine is taken to succeed and to call neither model, so that the
    function is its two prints around the record of the settings.  A
    failure of the library at this point would be outside every [try] of
    the script. *)
Definition create_query_engine (index : string * string) : M QueryEngine :=
  print "Creating query engine (with streaming enabled)...";;
  let query_engine :=
    {| engine_index := index;
       similarity_top_k := 3;
       text_qa_template := SYSTEM_PROMPT_RAG;
       streaming := true |} in
  print "Query engine created.";;
  mret query_engine.

(** [input(prompt)]: end of input raises [EOFError], an interrupt at the
    prompt raises [KeyboardInterrupt]. *)
Definition input (prompt : string) (tty : option Input)
    : M (string * Interrupt) :=
  emit (WriteText prompt);;
  match tty with
  | None => raise EOFError
  | Some CtrlC => raise KeyboardInterrupt
  | Some (Line text sigint) => mret (text, sigint)
  end.

(** The stream as the loop sees it when the interrupt falls into it. *)
Definition interrupted (sigint : Interrupt) (gen : TokenStream) : TokenStream :=
  match sigint with
  | DuringStream n =>
      if Nat.ltb n (length gen.1) then (take n gen.1, Some KeyboardInterrupt)
      else (gen.1, Some (default KeyboardInterrupt gen.2))
  | _ => gen
  end.

(** [for token in response_gen: print(token, end=..., flush=True)]. *)
Fixpoint print_tokens (tokens : list string) : M unit :=
  match tokens with
  | [] => mret tt
  | token :: rest => emit (WriteText token);; print_tokens rest
  end.

Definition for_token_in (gen : TokenStream) : M unit :=
  print_tokens gen.1;;
  match gen.2 with
  | Some e => raise e
  | None => mret tt
  end.

(** [for i, node in enumerate(source_nodes)], from index [i]. *)
Fixpoint print_sources (i : nat) (ns : list NodeWithScore) : M unit :=
  match ns with
  | [] => mret tt
  | node :: rest =>
      print ("  Source " +:+ pretty (S i) +:+ ":");;
      print ("    ID: " +:+ pretty (node_id node));;
      match node_score node with
      | Some sc => print ("    Score: " +:+ fmt_score sc)
      | None =>
          raise (TypeError "unsupported format string passed to NoneType.__format__")
      end;;
      let file_name :=
        match node_metadata node with
        | Some md =>
            if bool_decide (md = ∅) then "N/A"
            else default "N/A" (md !! "file_name")
        | None => "N/A"
        end in
      print ("    File: " +:+ file_name);;
      print_sources (S i) rest
  end.

(** The [try] block of the loop, lines 87 to 126: [Break] stands for the
    [break] statement, [Continue] for reaching the end of the block. *)
Definition loop_try (query_engine : QueryEngine) (tty : option Input)
    : M LoopCtl :=
  '(user_input, sigint) ← input "You: " tty;
  if Str.mem (Str.lower user_input) ["quit"; "exit"] then mret Break
  else if Str.truthy (Str.strip user_input) then
    print (Str.nl +:+ "Querying with: '" +:+ user_input +:+ "'...");;
    response_obj ←
      match sigint with
      | DuringQuery => raise KeyboardInterrupt
      | _ => query_engine_query query_engine user_input
      end;
    print (Str.nl +:+ "--- Assistant Response ---");;
    match response_obj with
    | StreamingResponse response_gen _ =>
        for_token_in (interrupted sigint response_gen);;
        print EmptyString
    | PlainResponse response _ =>
        print "Streaming response generator not found. Displaying full response.";;
        match response with
        | Some text =>
            if Str.truthy text then print (Str.strip text)
            else print "No response text available."
        | None => print "No response text available."
        end
    end;;
    print "-------------------------";;
    emit PrintElapsed;;
    print (Str.nl +:+ "--- Retrieved Sources ---");;
    match source_nodes response_obj with
    | [] => print "  - No sources retrieved."
    | ns => print_sources 0 ns
    end;;
    print ("-------------------------" +:+ Str.nl);;
    mret Continue
  else
    print "Please enter a prompt.";;
    mret Continue.

(** The [except] clauses, lines 127 to 136, in their order: [EOFError],
    [KeyboardInterrupt], [Exception]. *)
Definition loop_except (e : PyExc) : option (M LoopCtl) :=
  match e with
  | EOFError =>
      Some (print (Str.nl +:+ "Exiting due to EOF.");; mret Break)
  | KeyboardInterrupt =>
      Some (print (Str.nl +:+ "Exiting due to KeyboardInterrupt.");;
            mret Break)
  | _ =>
      if is_Exception e then Some (
        print (Str.nl +:+ "An error occurred: " +:+ str_exc e);;
        emit (Traceback e);;
        mret Continue)
      else None
  end.

(** The body of [while True]. *)
Definition loop_body (query_engine : QueryEngine) (tty : option Input)
    : M LoopCtl :=
  try_except (loop_try query_engine tty) loop_except.

(** [while True: ...] over what the terminal still holds; when it holds
    nothing more, [input] raises [EOFError] and the body breaks. *)
Fixpoint while_true (query_engine : QueryEngine) (stdin : list Input) : M unit :=
  match stdin with
  | [] => loop_body query_engine None;; mret tt
  | i :: rest =>
      ctl ← loop_body query_engine (Some i);
      match ctl with
      | Break => mret tt
      | Continue => while_true query_engine rest
      end
  end.

Definition run_chat_loop (query_engine : QueryEngine) (stdin : list Input)
    : M unit :=
  print (Str.nl +:+ "Starting RAG chat. Type 'quit' or 'exit' to end.");;
  while_true query_engine stdin;;
  print (Str.nl +:+ "Exiting chat.").

Definition main (stdin : list Input) : M unit :=
  print "--- Starting RAG Query Interface ---";;
  setup_llm_and_embed_models;;
  index ← load_vector_store_and_index;
  query_engine ← create_query_engine index;
  run_chat_loop query_engine stdin;;
  print "--- RAG Query Interface Closed ---".

(** What [main] prints before it looks for the store. *)
Definition start_log : list Event :=
  [PrintLine "--- Starting RAG Query Interface ---";
   PrintLine "Setting LLM model: qwen3:8b-q4_K_M";
   PrintLine "Setting embedding model: nomic-embed-text:137m-v1.5-fp16";
   PrintLine "LLM and embedding models set."].

(** The diagnostics of [load_vector_store_and_index]: for a missing
    persistence directory, and for a directory without the collection. *)
Definition store_diagnostic (dir_exists : bool) : list Event :=
  if dir_exists then
    [PrintLine "Loading ChromaDB client from ./chroma_db...";
     PrintLine "Getting Chroma collection: survival_docs";
     PrintLine "Error getting collection 'survival_docs': Collection survival_docs does not exist.";
     PrintLine "Ensure the collection was created by rag_ingestion.py."]
  else
    [PrintLine "ERROR: ChromaDB persistence directory './chroma_db' not found.";
     PrintLine "Please run the rag_ingestion.py script first to create and populate the database."].

(** What [main] prints, once the store is found, up to the first prompt. *)
Definition ready_log : list Event :=
  [PrintLine "Loading ChromaDB client from ./chroma_db...";
   PrintLine "Getting Chroma collection: survival_docs";
   PrintLine "Loading index from vector store...";
   PrintLine "Index loaded successfully from ChromaDB.";
   PrintLine "Creating query engine (with streaming enabled)...";
   PrintLine "Query engine created.";
   PrintLine (Str.nl +:+ "Starting RAG chat. Type 'quit' or 'exit' to end.")].

(** The persisted store is missing: no directory, or no collection of the
    configured name in it. *)
Definition store_missing (s : State) : Prop :=
  match fs s !! PERSIST_DIR with
  | None => True
  | Some d => dir_collections d !! COLLECTION_NAME = None
  end.

(** A request to the language model. *)
Definition is_model_call (e : Event) : bool :=
  match e with LlmCall _ => true | _ => false end.

(** A request to the embedding model or to the language model. *)
Definition is_query_event (e : Event) : bool :=
  match e with EmbedCall _ | LlmCall _ => true | _ => false end.

(** The prompt of [input]: the loop is waiting for a line. *)
Definition is_prompt (e : Event) : bool :=
  match e with WriteText text => String.eqb text "You: " | _ => false end.

(** A stack trace. *)
Definition is_traceback (e : Event) : bool :=
  match e with Traceback _ => true | _ => false end.

End Script.
End QueryRag.

(** ** What an ingestion run computes, as plain functions *)

Section Reference.

Context `{C : Collaborators}.

(** The content of an entry: all of it but the identifier. *)
Definition entry_content (e : Entry) : Vector * string * gmap string string :=
  (entry_vector e, entry_text e, entry_metadata e).

Definition doc_content (d : Document) : string * gmap string string :=
  (doc_text d, doc_metadata d).



(** Bodies and metadata of the documents that a list of files yields. *)
Definition documents_from (files : list File)
    : list (string * gmap string string) :=
  f ← files;
  (fun body => (body, {[ "file_name" := file_name f ]})) <$> read_file f.

(** Bodies and metadata of the documents loaded from a directory listing:
    those of the files that are not hidden. *)
Definition loaded (files : list File) : list (string * gmap string string) :=
  documents_from (visible files).

(** Text and metadata of the nodes parsed from loaded documents. *)
Definition parsed (docs : list (string * gmap string string))
    : list (string * gmap string string) :=
  d ← docs; (fun chunk => (chunk, d.2)) <$> split_text d.1.

(** The contents the nodes are stored with, or the first failure of the
    embedding provider. *)
Fixpoint embedded (ns : list (string * gmap string string))
    : PyExc + list (Vector * string * gmap string string) :=
  match ns with
  | [] => inr []
  | n :: ns' =>
      match embed n.1 with
      | inl e => inl e
      | inr v =>
          match embedded ns' with
          | inl e => inl e
          | inr cs => inr ((v, n.1, n.2) :: cs)
          end
      end
  end.

(** The contents a run over the source directory [d] leaves in the
    collection: nothing when the run stops before it writes. *)
Definition ingested (d : option Directory)
    : list (Vector * string * gmap string string) :=
  match d with
  | None => []
  | Some d =>
      match embedded (parsed (loaded (dir_files d))) with
      | inl _ => []
      | inr cs => cs
      end
  end.

End Reference.

(** ** A concrete set of collaborators, for running the scripts *)

Module Demo.

(** The texts on which the services of the demonstration fail: the
    embedding provider raises [EOFError] for a text that starts with an
    exclamation mark and [RuntimeError] for one that starts with a
    question mark. *)
Definition embed_failure (text : string) : option PyExc :=
  match text with
  | String "!" _ => Some EOFError
  | String "?" _ => Some (RuntimeError "model unreachable")
  | _ => None
  end.

(** Vectors are text lengths, the similarity of two vectors is how close
    the lengths are, every file is one document and one chunk, and the
    model answers with two tokens. *)
#[export] Instance collaborators : Collaborators := {|
  Vector := nat;
  Score := nat;
  read_file := fun f => [file_bytes f];
  split_text := fun t => [t];
  embed := fun t =>
    match embed_failure t with
    | Some e => inl e
    | None => inr (String.length t)
    end;
  similarity := fun a b => (100 - (a - b) - (b - a))%nat;
  score_leb := Nat.leb;
  fmt_score := fun n => pretty n;
  generate := fun p => (["Rub"; " sticks"], None)
|}.

Definition fire : File :=
  {| file_name := "fire.txt";
     file_bytes := "Rubbing sticks together generates heat via friction." |}.

Definition water : File :=
  {| file_name := "water.txt"; file_bytes := "Boil water before drinking." |}.

Definition old_entry : Entry :=
  {| entry_id := 7; entry_vector := 3%nat; entry_text := "old";
     entry_metadata := {[ "file_name" := "old.txt" ]} |}.

Definition note_entry : Entry :=
  {| entry_id := 8; entry_vector := 5%nat; entry_text := "notes";
     entry_metadata := ∅ |}.

Definition state_of (m : gmap string Directory) : State :=
  {| fs := m; uuid := 0; out := [] |}.

(** One stored entry and no source directory. *)
Definition store_without_data : State :=
  state_of {[ RagIngestion.PERSIST_DIR :=
    {| dir_files := [];
       dir_collections := {[ RagIngestion.COLLECTION_NAME := [old_entry] ]} |} ]}.

(** A persistence directory that also holds a second collection and a
    file, next to a source directory of two files. *)
Definition shared_store : State :=
  state_of (<[ RagIngestion.DATA_DIR :=
              {| dir_files := [fire; water]; dir_collections := ∅ |} ]>
            {[ RagIngestion.PERSIST_DIR :=
    {| dir_files := [ {| file_name := "README"; file_bytes := "keep" |} ];
       dir_collections := <[ "notes" := [note_entry] ]>
                          {[ RagIngestion.COLLECTION_NAME := [old_entry] ]} |} ]}).

(** Two source files and no store yet. *)
Definition data_only : State :=
  state_of {[ RagIngestion.DATA_DIR :=
    {| dir_files := [fire; water]; dir_collections := ∅ |} ]}.

(** A hidden file, and a source directory that holds nothing else. *)
Definition ds_store : File :=
  {| file_name := ".DS_Store"; file_bytes := "Bud1" |}.

Definition hidden_only : State :=
  state_of {[ RagIngestion.DATA_DIR :=
    {| dir_files := [ds_store]; dir_collections := ∅ |} ]}.

(** A store of four entries, as the query script finds it. *)
Definition four_entries : list Entry :=
  [ {| entry_id := 1; entry_vector := 52%nat; entry_text := file_bytes fire;
       entry_metadata := {[ "file_name" := "fire.txt" ]} |};
    {| entry_id := 2; entry_vector := 27%nat; entry_text := file_bytes water;
       entry_metadata := {[ "file_name" := "water.txt" ]} |};
    old_entry; note_entry ].

Definition populated (es : list Entry) : State :=
  state_of {[ QueryRag.PERSIST_DIR :=
    {| dir_files := [];
       dir_collections := {[ QueryRag.COLLECTION_NAME := es ]} |} ]}.

(** A persistence directory without the collection. *)
Definition no_collection : State :=
  state_of {[ QueryRag.PERSIST_DIR := empty_directory ]}.

Definition engine : QueryEngine :=
  {| engine_index := (QueryRag.PERSIST_DIR, QueryRag.COLLECTION_NAME);
     similarity_top_k := 3;
     text_qa_template := QueryRag.SYSTEM_PROMPT_RAG;
     streaming := true |}.

Definition question : string := "How do I start a fire without matches?".

(** The three sources the question retrieves from the four entries, by
    closeness of length: the two file entries, then the note. *)
Definition sources : list NodeWithScore :=
  [ {| node_id := 2; node_score := Some 89%nat;
       node_metadata := Some {[ "file_name" := "water.txt" ]};
       node_text := file_bytes water |};
    {| node_id := 1; node_score := Some 86%nat;
       node_metadata := Some {[ "file_name" := "fire.txt" ]};
       node_text := file_bytes fire |};
    {| node_id := 8; node_score := Some 67%nat;
       node_metadata := Some ∅; node_text := "notes" |} ].

Definition answer : Response :=
  StreamingResponse (["Rub"; " sticks"], None) sources.

End Demo.

(** ** What statements keep and what a session prints *)

Section Invariants.

Context `{C : Collaborators}.

(** A statement leaves the file system as it found it, whether it returns
    or raises. *)
Definition keeps_fs {A : Type} (m : M A) : Prop :=
  ∀ s, fs (m s).2 = fs s.

(** Every exception a statement raises satisfies [P]. *)
Definition raises_only {A : Type} (P : PyExc -> Prop) (m : M A) : Prop :=
  ∀ s e s', m s = (inl e, s') → P e.

(** An exception that a clause of the chat loop takes: an instance of
    [Exception], or [KeyboardInterrupt]. *)
Definition caught (e : PyExc) : Prop :=
  is_Exception e = true ∨ e = KeyboardInterrupt.

(** What the embedding provider and the language model raise when they
    fail is an instance of [Exception]. *)
Definition services_raise_exceptions : Prop :=
  (∀ text e, embed text = inl e → is_Exception e = true)
  ∧ (∀ prompt e, (generate prompt).2 = Some e → is_Exception e = true).

(** A line of ASCII characters only.  On such a line [Str.lower],
    [Str.strip] and [Str.isspace] are [str.lower], [str.strip] and
    [str.isspace] of Python; beyond ASCII Python also folds the case of
    other letters and takes other characters (U+0085, U+00A0, ...) for
    white space. *)
Definition ascii_only (text : string) : bool :=
  forallb (fun c => Nat.ltb (nat_of_ascii c) 128) (list_ascii_of_string text).

(** The file name a source is listed under: the [file_name] of its
    metadata, [N/A] without it. *)
Definition file_label (n : NodeWithScore) : string :=
  default "N/A" (node_metadata n ≫= (fun md => md !! "file_name")).

(** The four lines of the source listed as number [k]. *)
Definition source_block (k : nat) (n : NodeWithScore) (sc : Score)
    : list Event :=
  [PrintLine ("  Source " +:+ pretty k +:+ ":");
   PrintLine ("    ID: " +:+ pretty (node_id n));
   PrintLine ("    Score: " +:+ fmt_score sc);
   PrintLine ("    File: " +:+ file_label n)].

(** The listing of scored sources after the first [i]. *)
Fixpoint source_log (i : nat) (ns : list NodeWithScore) : list Event :=
  match ns with
  | [] => []
  | n :: rest =>
      match node_score n with
      | Some sc => source_block (S i) n sc
      | None => []
      end ++ source_log (S i) rest
  end.

(** What an iteration prints once the engine has answered with a complete
    stream: the answer token by token, the timing, the sources. *)
Definition answer_log (tokens : list string) (ns : list NodeWithScore)
    : list Event :=
  [PrintLine (Str.nl +:+ "--- Assistant Response ---")]
  ++ (WriteText <$> tokens)
  ++ [PrintLine EmptyString;
      PrintLine "-------------------------";
      PrintElapsed;
      PrintLine (Str.nl +:+ "--- Retrieved Sources ---")]
  ++ match ns with
     | [] => [PrintLine "  - No sources retrieved."]
     | _ => source_log 0 ns
     end
  ++ [PrintLine ("-------------------------" +:+ Str.nl)].

(** What the engine of the script can return: a stream that the language
    model produced. *)
Definition from_model (r : Response) : Prop :=
  match r with
  | StreamingResponse gen _ => ∃ prompt, gen = generate prompt
  | PlainResponse _ _ => True
  end.

(** What [n] blank lines leave on the terminal. *)
Definition blank_log (n : nat) : list Event :=
  concat (replicate n [WriteText "You: "; PrintLine "Please enter a prompt."]).

(** What the chat loop prints from the end of input on. *)
Definition eof_log : list Event :=
  [WriteText "You: ";
   PrintLine (Str.nl +:+ "Exiting due to EOF.");
   PrintLine (Str.nl +:+ "Exiting chat.")].

(** What an ingestion run prints when the loader returns no document. *)
Definition no_documents_log : list Event :=
  [PrintLine "Loading documents from ./survival_docs...";
   PrintLine "No documents found in ./survival_docs. Please add some text files."].

(** The last lines of a completed ingestion run. *)
Definition completion_log : list Event :=
  [PrintLine "--- RAG Ingestion Process Complete ---";
   PrintLine "Data ingested into ChromaDB at ./chroma_db using collection 'survival_docs'.";
   PrintLine "You can now run query_rag.py to chat with your documents."].

End Invariants.

(** ** Collaborators that fail *)

Module Faulty.

(** A loader that cannot read any file and a language model whose stream
    breaks after one token; the other services are those of the
    demonstration. *)
#[export] Instance collaborators : Collaborators := {|
  Vector := nat;
  Score := nat;
  read_file := fun _ => [];
  split_text := fun t => [t];
  embed := fun t => inr (String.length t);
  similarity := fun a b => (100 - (a - b) - (b - a))%nat;
  score_leb := Nat.leb;
  fmt_score := fun n => pretty n;
  generate := fun p => (["Rub"], Some (RuntimeError "connection lost"))
|}.

(** Two source files and no store yet. *)
Definition data_only : State :=
  {| fs := {[ RagIngestion.DATA_DIR :=
              {| dir_files := [Demo.fire; Demo.water];
                 dir_collections := ∅ |} ]};
     uuid := 0; out := [] |}.

Definition fire_entry : Entry :=
  {| entry_id := 1; entry_vector := 52%nat;
     entry_text := file_bytes Demo.fire;
     entry_metadata := {[ "file_name" := "fire.txt" ]} |}.

(** A store of one entry. *)
Definition populated : State :=
  {| fs := {[ QueryRag.PERSIST_DIR :=
              {| dir_files := [];
                 dir_collections :=
                   {[ QueryRag.COLLECTION_NAME := [fire_entry] ]} |} ]};
     uuid := 0; out := [] |}.

Definition engine : QueryEngine :=
  {| engine_index := (QueryRag.PERSIST_DIR, QueryRag.COLLECTION_NAME);
     similarity_top_k := 3;
     text_qa_template := QueryRag.SYSTEM_PROMPT_RAG;
     streaming := true |}.

(** The one source of the store, as the question retrieves it. *)
Definition fire_source : NodeWithScore :=
  {| node_id := 1; node_score := Some 86%nat;
     node_metadata := Some {[ "file_name" := "fire.txt" ]};
     node_text := file_bytes Demo.fire |}.

End Faulty.

(** ** A node parser that splits *)

Module Chunky.

(** The chunk size of the node parser, in characters; the default parser
    of the index library cuts at 1024 tokens. *)
Definition chunk_size : nat := 32.

(** A body cut into pieces of [chunk_size] characters, the last one
    possibly shorter; a body that fits is one chunk. *)
Fixpoint chunks (fuel : nat) (t : string) : list string :=
  match fuel with
  | O => [t]
  | S k =>
      if (String.length t <=? chunk_size)%nat then [t]
      else substring 0 chunk_size t
           :: chunks k (substring chunk_size (String.length t - chunk_size) t)
  end.

(** The services of the demonstration, with a node parser that cuts long
    documents. *)
#[export] Instance collaborators : Collaborators := {|
  Vector := nat;
  Score := nat;
  read_file := fun f => [file_bytes f];
  split_text := fun t => chunks (String.length t) t;
  embed := fun t => inr (String.length t);
  similarity := fun a b => (100 - (a - b) - (b - a))%nat;
  score_leb := Nat.leb;
  fmt_score := fun n => pretty n;
  generate := fun p => (["Rub"; " sticks"], None)
|}.

(** A source directory of one file of 52 characters and no store yet. *)
Definition one_file : State :=
  {| fs := {[ RagIngestion.DATA_DIR :=
              {| dir_files := [Demo.fire]; dir_collections := ∅ |} ]};
     uuid := 0; out := [] |}.

End Chunky.

(** * Properties *)

(** ** Running statements of the monad *)

Section MonadFacts.

Context `{C : Collaborators}.

Lemma bind_run {A B : Type} (m : M A) (f : A -> M B) s a s1 :
  m s = (inr a, s1) → (m ≫= f) s = f a s1.
Proof. intros H. unfold mbind, M_bind. rewrite H. reflexivity. Qed.

Lemma bind_raise {A B : Type} (m : M A) (f : A -> M B) s e s1 :
  m s = (inl e, s1) → (m ≫= f) s = (inl e, s1).
Proof. intros H. unfold mbind, M_bind. rewrite H. reflexivity. Qed.

Lemma for_each_cons {A B} (f : A -> M B) x xs s :
  for_each f (x :: xs) s =
    match f x s with
    | (inr y, s1) =>
        match for_each f xs s1 with
        | (inr ys, s2) => (inr (y :: ys), s2)
        | (inl e, s2) => (inl e, s2)
        end
    | (inl e, s1) => (inl e, s1)
    end.
Proof.
  simpl. unfold mbind, M_bind. destruct (f x s) as [[e|y] s1]; [done|].
  destruct (for_each f xs s1) as [[e|ys] s2]; done.
Qed.

Lemma os_path_exists_run (path : string) (s : State) :
  os_path_exists path s = (inr (bool_decide (is_Some (fs s !! path))), s).
Proof. reflexivity. Qed.

Lemma os_listdir_run (path : string) (d : Directory) (s : State) :
  fs s !! path = Some d →
  os_listdir path s = (inr (file_name <$> dir_files d), s).
Proof.
  intros E. unfold os_listdir. erewrite bind_run by reflexivity.
  rewrite E. reflexivity.
Qed.

(** The exit status leaves the file system as the script left it. *)
Lemma run_script_fs (script : M unit) (s : State) :
  fs (run_script script s).2 = fs (script s).2.
Proof.
  unfold run_script. destruct (script s) as [[e|u] s']; [|reflexivity].
  destruct e; reflexivity.
Qed.

End MonadFacts.

(** ** The ingestion script *)

Section IngestionFacts.

Import RagIngestion.

Context `{C : Collaborators}.

(** The loader returns the documents of [documents_from], in order. *)
Lemma documents_of_file_run (f : File) (s : State) :
  ∃ ds s', documents_of_file f s = (inr ds, s')
    ∧ fs s' = fs s ∧ out s' = out s
    ∧ doc_content <$> ds
      = (fun body => (body, {[ "file_name" := file_name f ]})) <$> read_file f.
Proof.
  unfold documents_of_file. revert s.
  induction (read_file f) as [|b bs IH]; intros s.
  - eexists _, _. split; [reflexivity|]. done.
  - rewrite for_each_cons. unfold mbind at 1, M_bind at 1, uuid4 at 1.
    cbn [mret M_ret].
    destruct (IH {| fs := fs s; uuid := S (uuid s); out := out s |})
      as (ds & s' & -> & Hfs & Hout & Hc).
    eexists _, _. split; [reflexivity|].
    split; [exact Hfs|]. split; [exact Hout|].
    rewrite !fmap_cons, Hc. reflexivity.
Qed.

Lemma load_files_run (files : list File) (s : State) :
  ∃ dss s', for_each documents_of_file files s = (inr dss, s')
    ∧ fs s' = fs s ∧ out s' = out s
    ∧ doc_content <$> concat dss = documents_from files.
Proof.
  revert s. induction files as [|f files IH]; intros s.
  - eexists _, _. split; [reflexivity|]. done.
  - rewrite for_each_cons.
    destruct (documents_of_file_run f s) as (ds & s1 & -> & Hfs1 & Hout1 & Hc1).
    destruct (IH s1) as (dss & s2 & -> & Hfs2 & Hout2 & Hc2).
    eexists _, _. split; [reflexivity|].
    split; [congruence|]. split; [congruence|].
    simpl. rewrite fmap_app, Hc1, Hc2. reflexivity.
Qed.


Lemma parsed_nodes (docs : list Document) :
  concat (nodes_of_document <$> docs) = parsed (doc_content <$> docs).
Proof.
  unfold parsed. induction docs as [|d docs IH].
  - reflexivity.
  - rewrite !fmap_cons, bind_cons. simpl concat. rewrite IH. reflexivity.
Qed.

Lemma embed_node_run (n : string * gmap string string) (s : State) :
  embed_node n s =
    match embed n.1 with
    | inl e => (inl e, with_out (EmbedCall n.1) s)
    | inr v =>
        (inr {| entry_id := uuid s; entry_vector := v;
                entry_text := n.1; entry_metadata := n.2 |},
         {| fs := fs s; uuid := S (uuid s); out := out s ++ [EmbedCall n.1] |})
    end.
Proof.
  unfold embed_node, mbind, M_bind, emit. destruct (embed n.1); reflexivity.
Qed.

Lemma embed_nodes_run (ns : list (string * gmap string string)) (s : State) :
  match embedded ns with
  | inl e => ∃ s', for_each embed_node ns s = (inl e, s') ∧ fs s' = fs s
  | inr cs => ∃ es s', for_each embed_node ns s = (inr es, s')
                ∧ fs s' = fs s ∧ entry_content <$> es = cs
  end.
Proof.
  revert s. induction ns as [|n ns IH]; intros s.
  - simpl. eexists _, _. done.
  - rewrite for_each_cons, embed_node_run. cbn [embedded].
    destruct (embed n.1) as [e|v].
    + eexists. split; reflexivity.
    + specialize (IH {| fs := fs s; uuid := S (uuid s);
                        out := out s ++ [EmbedCall n.1] |}).
      destruct (embedded ns) as [e|cs].
      * destruct IH as (s' & Heq & Hfs). rewrite Heq.
        eexists. split; [reflexivity|]. exact Hfs.
      * destruct IH as (es & s' & Heq & Hfs & Hc). rewrite Heq.
        eexists _, _. split; [reflexivity|]. split; [exact Hfs|].
        rewrite fmap_cons, Hc. reflexivity.
Qed.

Lemma embedded_length ns cs : embedded ns = inr cs → length cs = length ns.
Proof.
  revert cs. induction ns as [|n ns IH]; intros cs; simpl.
  - intros [= <-]. reflexivity.
  - destruct (embed n.1); [done|]. destruct (embedded ns); [done|].
    intros [= <-]. simpl. f_equal. by apply IH.
Qed.

Lemma load_documents_missing (s : State) :
  data_dir_missing_or_empty s →
  load_documents s =
    (inl (SystemExit 1),
     {| fs := fs s; uuid := uuid s; out := out s ++ data_dir_diagnostic |}).
Proof.
  unfold data_dir_missing_or_empty, load_documents. intros Hd.
  erewrite bind_run by apply os_path_exists_run.
  destruct (fs s !! DATA_DIR) as [d|] eqn:E.
  - rewrite bool_decide_eq_true_2 by eauto. cbn [negb].
    erewrite bind_run; cycle 1.
    { erewrite bind_run by (apply os_listdir_run; exact E). reflexivity. }
    rewrite Hd. cbn [fmap list_fmap is_nil].
    unfold mbind, M_bind, print, emit, sys_exit, raise, with_out. cbn.
    rewrite <- app_assoc. reflexivity.
  - rewrite bool_decide_eq_false_2 by (intros [? ?]; congruence). cbn [negb].
    erewrite bind_run by reflexivity.
    unfold mbind, M_bind, print, emit, sys_exit, raise, with_out. cbn.
    rewrite <- app_assoc. reflexivity.
Qed.

Lemma visible_nonempty (files : list File) :
  visible files ≠ [] → files ≠ [].
Proof. intros H ->. by apply H. Qed.

Lemma load_data_run (d : Directory) (s : State) :
  fs s !! DATA_DIR = Some d → visible (dir_files d) ≠ [] →
  ∃ docs s', SimpleDirectoryReader_load_data DATA_DIR s = (inr docs, s')
    ∧ fs s' = fs s ∧ out s' = out s
    ∧ doc_content <$> docs = loaded (dir_files d).
Proof.
  intros E Hne. unfold SimpleDirectoryReader_load_data, loaded.
  erewrite bind_run by reflexivity. rewrite E.
  destruct (visible (dir_files d)) as [|f files] eqn:Ef; [done|].
  destruct (load_files_run (f :: files) s) as (dss & s' & Heq & Hfs & Hout & Hc).
  erewrite bind_run by exact Heq.
  eexists _, _. split; [reflexivity|]. done.
Qed.

Lemma load_documents_present (d : Directory) (s : State) :
  fs s !! DATA_DIR = Some d → visible (dir_files d) ≠ [] →
  ∃ s', fs s' = fs s ∧
    match loaded (dir_files d) with
    | [] => load_documents s = (inl (SystemExit 1), s')
    | _ => ∃ docs, load_documents s = (inr docs, s')
             ∧ doc_content <$> docs = loaded (dir_files d)
    end.
Proof.
  intros E Hvis. pose proof (visible_nonempty _ Hvis) as Hne.
  unfold load_documents.
  erewrite bind_run by apply os_path_exists_run.
  rewrite bool_decide_eq_true_2 by eauto. cbn [negb].
  erewrite bind_run; cycle 1.
  { erewrite bind_run by (apply os_listdir_run; exact E). reflexivity. }
  destruct (dir_files d) as [|f files] eqn:Ef; [done|]. cbn [fmap list_fmap is_nil].
  erewrite bind_run by reflexivity.
  destruct (load_data_run d (with_out (PrintLine ("Loading documents from " +:+ DATA_DIR +:+ "...")) s))
    as (docs & s1 & Heq & Hfs & Hout & Hc); [exact E|congruence|].
  unfold try_except. erewrite bind_run by exact Heq.
  rewrite Ef in Hc.
  destruct docs as [|doc docs]; cbn [is_nil].
  - rewrite <- Hc. eexists. split; [|reflexivity]. exact Hfs.
  - rewrite <- Hc. rewrite fmap_cons. eexists. split; [|eexists; split; [reflexivity|]].
    + exact Hfs.
    + reflexivity.
Qed.

(** A directory that lists files of which the loader takes none: the
    loader raises [ValueError], and the clause of [load_documents] for it
    prints its two lines and exits. *)
Lemma load_documents_hidden (d : Directory) (s : State) :
  fs s !! DATA_DIR = Some d → dir_files d ≠ [] →
  visible (dir_files d) = [] →
  load_documents s
  = (inl (SystemExit 1),
     {| fs := fs s; uuid := uuid s;
        out := out s ++ loader_error_log ("No files found in " +:+ DATA_DIR +:+ ".") |}).
Proof.
  intros E Hne Hvis. unfold load_documents.
  erewrite bind_run by apply os_path_exists_run.
  rewrite bool_decide_eq_true_2 by eauto. cbn [negb].
  erewrite bind_run; cycle 1.
  { erewrite bind_run by (apply os_listdir_run; exact E). reflexivity. }
  destruct (dir_files d) as [|f files] eqn:Ef; [done|]. cbn [fmap list_fmap is_nil].
  erewrite bind_run by reflexivity.
  unfold try_except, SimpleDirectoryReader_load_data.
  erewrite bind_raise; cycle 1.
  { erewrite bind_run by reflexivity. cbn [fs with_out]. rewrite E, Ef, Hvis.
    reflexivity. }
  cbn [isinstance_ValueError].
  unfold mbind, M_bind, print, emit, sys_exit, raise, with_out, loader_error_log.
  cbn [fs uuid out str_exc]. rewrite <- !app_assoc. reflexivity.
Qed.

Lemma initialize_vector_store_run (s : State) :
  initialize_vector_store s =
    (inr (PERSIST_DIR, COLLECTION_NAME),
     {| fs := <[PERSIST_DIR := store_of []]> (fs s);
        uuid := uuid s;
        out := out s ++ wipe_log (bool_decide (is_Some (fs s !! PERSIST_DIR))) |}).
Proof.
  unfold initialize_vector_store, shutil_rmtree, os_makedirs, PersistentClient,
    get_or_create_collection, os_makedirs.
  erewrite bind_run by apply os_path_exists_run.
  unfold mbind, M_bind, mret, M_ret, print, emit, modify_fs, with_out, with_fs.
  cbn beta iota.
  destruct (fs s !! PERSIST_DIR) as [d|] eqn:E.
  - rewrite bool_decide_eq_true_2 by eauto. cbn.
    rewrite lookup_delete_eq, lookup_insert_eq. cbn.
    rewrite lookup_insert_eq. cbn. rewrite lookup_empty.
    rewrite !insert_insert_eq, insert_delete_eq.
    rewrite <- !app_assoc. reflexivity.
  - rewrite bool_decide_eq_false_2 by (intros [? ?]; congruence). cbn.
    rewrite E, lookup_insert_eq. cbn. rewrite lookup_insert_eq. cbn.
    rewrite lookup_empty, !insert_insert_eq.
    rewrite <- !app_assoc. reflexivity.
Qed.

Lemma collection_add_run (es : list Entry) (s : State) (m : gmap string Directory) :
  fs s = <[PERSIST_DIR := store_of []]> m →
  ∃ s', collection_add (PERSIST_DIR, COLLECTION_NAME) es s = (inr tt, s')
    ∧ fs s' = <[PERSIST_DIR := store_of es]> m.
Proof.
  intros E. unfold collection_add. erewrite bind_run by reflexivity.
  cbn [fst snd]. rewrite E, lookup_insert_eq. cbn [store_of dir_collections].
  rewrite lookup_singleton_eq. eexists. split; [reflexivity|].
  cbn. rewrite E, insert_insert_eq. unfold set_collection, store_of. cbn.
  unfold COLLECTION_NAME. rewrite insert_insert_eq. reflexivity.
Qed.

Lemma data_dir_not_persist_dir : PERSIST_DIR ≠ DATA_DIR.
Proof. discriminate. Qed.

Lemma ingested_no_documents (d : Directory) :
  loaded (dir_files d) = [] → ingested (Some d) = [].
Proof. intros H. unfold ingested. rewrite H. reflexivity. Qed.

Lemma ingest_documents_run (docs : list Document) (s : State)
    (m : gmap string Directory) :
  fs s = <[PERSIST_DIR := store_of []]> m →
  match embedded (parsed (doc_content <$> docs)) with
  | inl e =>
      ∃ s', ingest_documents docs (PERSIST_DIR, COLLECTION_NAME) s = (inl e, s')
        ∧ fs s' = fs s
  | inr cs =>
      ∃ es s', ingest_documents docs (PERSIST_DIR, COLLECTION_NAME) s
                 = (inr (PERSIST_DIR, COLLECTION_NAME), s')
        ∧ fs s' = <[PERSIST_DIR := store_of es]> m
        ∧ entry_content <$> es = cs
  end.
Proof.
  intros Hfs. unfold ingest_documents, VectorStoreIndex_from_documents.
  erewrite bind_run by reflexivity.
  rewrite parsed_nodes.
  match goal with |- context [for_each embed_node ?ns] =>
    pose proof (embed_nodes_run ns
      (with_out (PrintLine "Creating index and ingesting documents into ChromaDB...") s))
      as Hemb end.
  destruct (embedded (parsed (doc_content <$> docs))) as [e|cs].
  - destruct Hemb as (s4 & Hemb & Hfs4). eexists.
    erewrite bind_raise; [split; [reflexivity|exact Hfs4]|].
    erewrite bind_raise; [reflexivity|exact Hemb].
  - destruct Hemb as (es & s4 & Hemb & Hfs4 & Hc).
    destruct (collection_add_run es s4 m) as (s5 & Hadd & Hfs5);
      [rewrite Hfs4; exact Hfs|].
    eexists es, _.
    erewrite bind_run; [split; [reflexivity|split; [exact Hfs5|exact Hc]]|].
    erewrite bind_run by exact Hemb.
    erewrite bind_run by exact Hadd. reflexivity.
Qed.

Lemma main_run (s : State) :
  ∃ r es s', main s = (r, s')
    ∧ fs s' = <[PERSIST_DIR := store_of es]> (fs s)
    ∧ entry_content <$> es = ingested (fs s !! DATA_DIR)
    ∧ (∀ u, r = inr u →
         ∃ d, fs s !! DATA_DIR = Some d ∧ loaded (dir_files d) ≠ []
              ∧ embedded (parsed (loaded (dir_files d)))
                = inr (entry_content <$> es)).
Proof.
  unfold main.
  erewrite bind_run by reflexivity.
  erewrite bind_run by reflexivity.
  erewrite bind_run by apply initialize_vector_store_run.
  cbn beta.
  match goal with |- context [(load_documents ≫= _) ?s1] => set (s1' := s1) end.
  assert (Hfs1 : fs s1' = <[PERSIST_DIR := store_of []]> (fs s)) by reflexivity.
  assert (Hdata : fs s1' !! DATA_DIR = fs s !! DATA_DIR).
  { rewrite Hfs1. apply lookup_insert_ne, data_dir_not_persist_dir. }
  clearbody s1'.
  destruct (fs s !! DATA_DIR) as [d|] eqn:E.
  2: { erewrite bind_raise by (apply load_documents_missing;
         unfold data_dir_missing_or_empty; rewrite Hdata; exact I).
       eexists _, [], _. split; [reflexivity|]. cbn [fs]. done. }
  assert (Hfiles : dir_files d = [] ∨ dir_files d ≠ [])
    by (destruct (dir_files d); [left|right]; done).
  destruct Hfiles as [Ef|Hne].
  { erewrite bind_raise by (apply load_documents_missing;
      unfold data_dir_missing_or_empty; rewrite Hdata; exact Ef).
    eexists _, [], _. split; [reflexivity|]. cbn [fs].
    split; [done|]. split; [|done].
    unfold ingested. rewrite Ef. reflexivity. }
  assert (Hvis : visible (dir_files d) = [] ∨ visible (dir_files d) ≠ [])
    by (destruct (visible (dir_files d)); [left|right]; done).
  destruct Hvis as [Hvis|Hvis].
  { erewrite bind_raise
      by (apply (load_documents_hidden d); [exact Hdata|exact Hne|exact Hvis]).
    eexists _, [], _. split; [reflexivity|]. cbn [fs].
    split; [done|]. split; [|done].
    symmetry. apply ingested_no_documents. unfold loaded. rewrite Hvis.
    reflexivity. }
  destruct (load_documents_present d s1') as (s2 & Hfs2 & Hload);
    [exact Hdata|exact Hvis|].
  destruct (loaded (dir_files d)) as [|b bs] eqn:El.
  { erewrite bind_raise by exact Hload.
    eexists _, [], _. split; [reflexivity|].
    split; [congruence|]. split; [|done].
    symmetry. apply ingested_no_documents. exact El. }
  destruct Hload as (docs & Hload & Hdocs).
  erewrite bind_run by exact Hload.
  pose proof (ingest_documents_run docs s2 (fs s)) as Hing.
  rewrite Hdocs in Hing.
  destruct (embedded (parsed (b :: bs))) as [e|cs] eqn:Ee.
  - destruct Hing as (s4 & Hing & Hfs4); [congruence|].
    erewrite bind_raise by exact Hing.
    eexists _, [], _. split; [reflexivity|].
    split; [congruence|]. split; [|done].
    unfold ingested. rewrite El, Ee. reflexivity.
  - destruct Hing as (es & s4 & Hing & Hfs4 & Hc); [congruence|].
    erewrite bind_run by exact Hing.
    eexists _, es, _. split; [reflexivity|].
    split; [exact Hfs4|].
    split; [unfold ingested; rewrite El, Ee; exact Hc|].
    intros u _. exists d. rewrite El, Ee, Hc. done.
Qed.

End IngestionFacts.

Section IngestionClaims.

Import RagIngestion.

Context `{C : Collaborators}.

Lemma collection_entries_store_of (s : State) (m : gmap string Directory)
    (es : list Entry) :
  fs s = <[PERSIST_DIR := store_of es]> m →
  collection_entries s (PERSIST_DIR, COLLECTION_NAME) = Some es.
Proof.
  intros E. unfold collection_entries. cbn [fst snd].
  rewrite E, lookup_insert_eq. cbn [mbind option_bind store_of dir_collections].
  apply lookup_singleton_eq.
Qed.

(** C1, as corrected: when the source directory is missing or empty, the
    run exits with status 1 and the diagnostic of [load_documents], and it
    does so after [initialize_vector_store] has replaced the persistence
    directory by a fresh one that holds only the empty collection: the
    check comes after the wipe, and the former store is gone. *)
Theorem missing_data_dir_exits_after_wipe (s : State) :
  data_dir_missing_or_empty s →
  run_script main s =
    (1, {| fs := <[PERSIST_DIR := fresh_store]> (fs s);
           uuid := uuid s;
           out := out s ++ start_log
                  ++ wipe_log (bool_decide (is_Some (fs s !! PERSIST_DIR)))
                  ++ data_dir_diagnostic |}).
Proof.
  intros Hd. unfold run_script, main.
  erewrite bind_run by reflexivity.
  erewrite bind_run by reflexivity.
  erewrite bind_run by apply initialize_vector_store_run.
  erewrite bind_raise; cycle 1.
  { apply load_documents_missing. unfold data_dir_missing_or_empty in *.
    cbn [fs]. rewrite lookup_insert_ne by apply data_dir_not_persist_dir.
    exact Hd. }
  cbn [fs uuid out with_out]. unfold fresh_store, start_log.
  rewrite <- !app_assoc. reflexivity.
Qed.

(** C4, as corrected: every run replaces the whole persistence directory.
    Afterwards it holds no file and no collection but the configured one,
    whatever it held before, and the configured collection holds what this
    run ingested from the source directory and nothing of what the store
    held before; the rest of the file system is as it was. *)
Theorem ingestion_replaces_persist_dir (s : State) :
  ∃ es, fs (run_script main s).2 = <[PERSIST_DIR := store_of es]> (fs s)
        ∧ entry_content <$> es = ingested (fs s !! DATA_DIR).
Proof.
  destruct (main_run s) as (r & es & s' & Hrun & Hfs & Hc & _).
  exists es. split; [|exact Hc].
  rewrite run_script_fs, Hrun. exact Hfs.
Qed.





(** C5: a second run right after a first one leaves a collection with as
    many entries and the same contents (vector, text and metadata, in the
    same order) as the first run left; only the identifiers are drawn
    anew. *)
Theorem ingestion_twice_same_collection (s : State) :
  let once := (run_script main s).2 in
  let twice := (run_script main once).2 in
  ∃ es1 es2,
    collection_entries once (PERSIST_DIR, COLLECTION_NAME) = Some es1
    ∧ collection_entries twice (PERSIST_DIR, COLLECTION_NAME) = Some es2
    ∧ length es2 = length es1
    ∧ entry_content <$> es2 = entry_content <$> es1.
Proof.
  intros once twice.
  destruct (main_run s) as (r1 & es1 & s1 & Hrun1 & Hfs1 & Hc1 & _).
  assert (Honce : fs once = <[PERSIST_DIR := store_of es1]> (fs s)).
  { unfold once. rewrite run_script_fs, Hrun1. exact Hfs1. }
  destruct (main_run once) as (r2 & es2 & s2 & Hrun2 & Hfs2 & Hc2 & _).
  assert (Htwice : fs twice = <[PERSIST_DIR := store_of es2]> (fs once)).
  { unfold twice. rewrite run_script_fs, Hrun2. exact Hfs2. }
  assert (Hsame : entry_content <$> es2 = entry_content <$> es1).
  { rewrite Hc2, Hc1, Honce.
    rewrite lookup_insert_ne by apply data_dir_not_persist_dir. reflexivity. }
  exists es1, es2.
  split; [by eapply collection_entries_store_of|].
  split; [by eapply collection_entries_store_of|].
  split; [|exact Hsame].
  rewrite <- (length_fmap entry_content es2), Hsame. apply length_fmap.
Qed.

End IngestionClaims.

(** ** The ingestion script on concrete states *)

(** C1, as stated, fails: the store holds one entry, the source directory
    is missing, the run exits with status 1, and the entry is gone. *)
Lemma failed_ingestion_destroys_store :
  let s := Demo.store_without_data in
  let after := (run_script RagIngestion.main s).2 in
  let h := (RagIngestion.PERSIST_DIR, RagIngestion.COLLECTION_NAME) in
  RagIngestion.data_dir_missing_or_empty s
  ∧ (run_script RagIngestion.main s).1 = 1
  ∧ collection_entries s h = Some [Demo.old_entry]
  ∧ collection_entries after h = Some []
  ∧ fs after !! RagIngestion.PERSIST_DIR ≠ fs s !! RagIngestion.PERSIST_DIR.
Proof.
  intros s after h.
  assert (Hbefore : collection_entries s h = Some [Demo.old_entry])
    by (vm_compute; reflexivity).
  assert (Hafter : collection_entries after h = Some [])
    by (vm_compute; reflexivity).
  split; [vm_compute; exact I|].
  split; [vm_compute; reflexivity|].
  split; [exact Hbefore|]. split; [exact Hafter|].
  intros Heq. unfold collection_entries in Hbefore, Hafter.
  cbn [fst snd h] in Hbefore, Hafter. rewrite Heq, Hbefore in Hafter.
  discriminate Hafter.
Qed.

Lemma missing_data_dir_exits_after_wipe_witness :
  let s := Demo.store_without_data in
  RagIngestion.data_dir_missing_or_empty s
  ∧ run_script RagIngestion.main s =
      (1, {| fs := <[RagIngestion.PERSIST_DIR := RagIngestion.fresh_store]> (fs s);
             uuid := uuid s;
             out := out s ++ RagIngestion.start_log
                    ++ RagIngestion.wipe_log
                         (bool_decide (is_Some (fs s !! RagIngestion.PERSIST_DIR)))
                    ++ RagIngestion.data_dir_diagnostic |}).
Proof.
  intros s.
  assert (H : RagIngestion.data_dir_missing_or_empty s) by (vm_compute; exact I).
  split; [exact H|].
  exact (missing_data_dir_exits_after_wipe s H).
Defined.

(** C4, as stated, fails: the persistence directory holds a second
    collection and a file; the run completes and both are gone. *)
Lemma ingestion_destroys_other_data :
  let s := Demo.shared_store in
  let after := (run_script RagIngestion.main s).2 in
  (run_script RagIngestion.main s).1 = 0
  ∧ collection_entries s (RagIngestion.PERSIST_DIR, "notes")
    = Some [Demo.note_entry]
  ∧ collection_entries after (RagIngestion.PERSIST_DIR, "notes") = None
  ∧ (fun d : @Directory Demo.collaborators => file_name <$> dir_files d)
      <$> fs s !! RagIngestion.PERSIST_DIR
    = Some ["README"]
  ∧ (fun d : @Directory Demo.collaborators => file_name <$> dir_files d)
      <$> fs after !! RagIngestion.PERSIST_DIR
    = Some [].
Proof. repeat split; vm_compute; reflexivity. Qed.



(** ** Text primitives *)

Section StrFacts.

Import Str.

Lemma lower_char_same_letter (a b : ascii) :
  same_letter a b → lower_char a = lower_char b.
Proof.
  intros [->|[->| ->]]; [reflexivity| |].
  - destruct b as [[] [] [] [] [] [] [] []]; vm_compute; reflexivity.
  - destruct a as [[] [] [] [] [] [] [] []]; vm_compute; reflexivity.
Qed.

Lemma lower_eq_ignoring_case (s t : string) :
  eq_ignoring_case s t → lower s = lower t.
Proof.
  induction 1 as [|a b s t Hab _ IH]; [reflexivity|].
  cbn [lower]. rewrite IH, (lower_char_same_letter a b Hab). reflexivity.
Qed.

Lemma length_lower (s : string) : String.length (lower s) = String.length s.
Proof.
  induction s as [|c s IH]; [reflexivity|].
  cbn [lower String.length]. rewrite IH. reflexivity.
Qed.

Lemma length_eq_ignoring_case (s t : string) :
  eq_ignoring_case s t → String.length s = String.length t.
Proof. induction 1; [reflexivity|]. cbn. congruence. Qed.

Lemma mem_exit_keyword (s : string) :
  eq_ignoring_case s "quit" ∨ eq_ignoring_case s "exit" →
  mem (lower s) ["quit"; "exit"] = true.
Proof.
  intros [H|H]; apply lower_eq_ignoring_case in H; rewrite H; reflexivity.
Qed.

Lemma mem_exit_keyword_length (s : string) :
  mem s ["quit"; "exit"] = true → String.length s = 4%nat.
Proof.
  unfold mem. cbn [existsb]. rewrite !orb_true_iff.
  intros [H|[H|H]]; [| |done]; apply String.eqb_eq in H; subst; reflexivity.
Qed.

Lemma length_append (s t : string) :
  String.length (s +:+ t) = (String.length s + String.length t)%nat.
Proof.
  induction s as [|c s IH]; [reflexivity|].
  change (String c s +:+ t) with (String c (s +:+ t)).
  cbn [String.length]. rewrite IH. reflexivity.
Qed.

Lemma isspace_lower_char (c : ascii) : isspace (lower_char c) = isspace c.
Proof. destruct c as [[] [] [] [] [] [] [] []]; reflexivity. Qed.

Lemma no_space_lower (s : string) : no_space (lower s) = no_space s.
Proof.
  induction s as [|c s IH]; [reflexivity|].
  cbn [lower no_space]. by rewrite isspace_lower_char, IH.
Qed.

Lemma no_space_exit_keyword (s : string) :
  eq_ignoring_case s "quit" ∨ eq_ignoring_case s "exit" → no_space s = true.
Proof.
  intros H. rewrite <- no_space_lower.
  destruct H as [H|H]; apply lower_eq_ignoring_case in H; rewrite H; reflexivity.
Qed.

Lemma append_empty_r (s : string) : s +:+ EmptyString = s.
Proof.
  induction s as [|c s IH]; [reflexivity|].
  change (String c s +:+ EmptyString) with (String c (s +:+ EmptyString)).
  by rewrite IH.
Qed.

Lemma lstrip_all_space (pre t : string) :
  all_space pre = true → lstrip (pre +:+ t) = lstrip t.
Proof.
  induction pre as [|c pre IH]; [reflexivity|]. cbn [all_space].
  intros [Hc Hpre]%andb_true_iff.
  change (String c pre +:+ t) with (String c (pre +:+ t)).
  cbn [lstrip]. rewrite Hc. by apply IH.
Qed.

Lemma lstrip_no_space (c : ascii) (s : string) :
  isspace c = false → lstrip (String c s) = String c s.
Proof. intros H. cbn [lstrip]. by rewrite H. Qed.

Lemma rstrip_all_space (post : string) :
  all_space post = true → rstrip post = EmptyString.
Proof.
  induction post as [|c post IH]; [reflexivity|]. cbn [all_space].
  intros [Hc Hpost]%andb_true_iff. cbn [rstrip]. by rewrite IH, Hc.
Qed.

Lemma rstrip_no_space (s t : string) :
  no_space s = true → rstrip (s +:+ t) = s +:+ rstrip t.
Proof.
  induction s as [|c s IH]; [reflexivity|]. cbn [no_space].
  intros [Hc Hs]%andb_true_iff. apply negb_true_iff in Hc.
  change (String c s +:+ t) with (String c (s +:+ t)).
  change (String c s +:+ rstrip t) with (String c (s +:+ rstrip t)).
  cbn [rstrip]. rewrite IH by exact Hs.
  destruct (s +:+ rstrip t); [by rewrite Hc|reflexivity].
Qed.

Lemma strip_padded (pre kw post : string) :
  all_space pre = true → all_space post = true →
  no_space kw = true → kw ≠ EmptyString →
  strip (pre +:+ kw +:+ post) = kw.
Proof.
  intros Hpre Hpost Hkw Hne. unfold strip.
  rewrite lstrip_all_space by exact Hpre.
  destruct kw as [|c kw]; [done|]. cbn [no_space] in Hkw.
  apply andb_true_iff in Hkw as [Hc Hkw']. apply negb_true_iff in Hc.
  change (String c kw +:+ post) with (String c (kw +:+ post)).
  rewrite lstrip_no_space by exact Hc.
  change (String c (kw +:+ post)) with (String c kw +:+ post).
  rewrite rstrip_no_space.
  - rewrite rstrip_all_space by exact Hpost. apply append_empty_r.
  - cbn [no_space]. by rewrite Hc, Hkw'.
Qed.

End StrFacts.

(** ** The query script *)

Section QueryFacts.

Import Str QueryRag.

Context `{C : Collaborators}.

Lemma loop_try_exit (qe : QueryEngine) (text : string) (sigint : Interrupt)
    (s : State) :
  Str.mem (Str.lower text) ["quit"; "exit"] = true →
  loop_try qe (Some (Line text sigint)) s
  = (inr Break, with_out (WriteText "You: ") s).
Proof.
  intros H. unfold loop_try, input.
  erewrite bind_run by reflexivity. cbn beta iota. rewrite H. reflexivity.
Qed.

Lemma loop_body_returns (qe : QueryEngine) (tty : option Input) (s s1 : State)
    (ctl : LoopCtl) :
  loop_try qe tty s = (inr ctl, s1) → loop_body qe tty s = (inr ctl, s1).
Proof. intros H. unfold loop_body, try_except. rewrite H. reflexivity. Qed.

Lemma loop_body_raises (qe : QueryEngine) (tty : option Input) (s s1 : State)
    (e : PyExc) :
  loop_try qe tty s = (inl e, s1) →
  loop_body qe tty s =
    match loop_except e with
    | Some handler => handler s1
    | None => (inl e, s1)
    end.
Proof. intros H. unfold loop_body, try_except. rewrite H. reflexivity. Qed.

Lemma while_true_break (qe : QueryEngine) (i : Input) (rest : list Input)
    (s s1 : State) :
  loop_body qe (Some i) s = (inr Break, s1) →
  while_true qe (i :: rest) s = (inr tt, s1).
Proof. intros H. cbn [while_true]. erewrite bind_run by exact H. reflexivity. Qed.

Lemma while_true_continue (qe : QueryEngine) (i : Input) (rest : list Input)
    (s s1 : State) :
  loop_body qe (Some i) s = (inr Continue, s1) →
  while_true qe (i :: rest) s = while_true qe rest s1.
Proof. intros H. cbn [while_true]. erewrite bind_run by exact H. reflexivity. Qed.

(** At the end of input the body breaks: the loop of the model stops where
    the loop of the script stops. *)
Lemma loop_body_eof (qe : QueryEngine) (s : State) :
  loop_body qe None s
  = (inr Break,
     with_out (PrintLine (Str.nl +:+ "Exiting due to EOF."))
       (with_out (WriteText "You: ") s)).
Proof. reflexivity. Qed.

Lemma load_vector_store_and_index_run (s : State) (d : Directory)
    (es : list Entry) :
  fs s !! PERSIST_DIR = Some d →
  dir_collections d !! COLLECTION_NAME = Some es →
  load_vector_store_and_index s =
    (inr (PERSIST_DIR, COLLECTION_NAME),
     {| fs := fs s; uuid := uuid s;
        out := out s ++
          [PrintLine "Loading ChromaDB client from ./chroma_db...";
           PrintLine "Getting Chroma collection: survival_docs";
           PrintLine "Loading index from vector store...";
           PrintLine "Index loaded successfully from ChromaDB."] |}).
Proof.
  intros Ed Ec. unfold load_vector_store_and_index.
  erewrite bind_run by apply os_path_exists_run.
  rewrite bool_decide_eq_true_2 by eauto. cbn [negb].
  erewrite bind_run by reflexivity.
  erewrite bind_run by reflexivity.
  unfold PersistentClient, os_makedirs, get_collection, try_except.
  unfold mbind, M_bind, mret, M_ret, print, emit, modify_fs, get_state,
    with_out, with_fs. cbn beta iota. cbn [fs uuid out].
  rewrite Ed. cbn [fs]. rewrite Ed. cbn [mbind option_bind]. rewrite Ec.
  cbn beta iota. cbn [fs uuid out]. rewrite <- !app_assoc. reflexivity.
Qed.

Lemma load_vector_store_and_index_missing (s : State) :
  store_missing s →
  load_vector_store_and_index s =
    (inl (SystemExit 1),
     {| fs := fs s; uuid := uuid s;
        out := out s
               ++ store_diagnostic (bool_decide (is_Some (fs s !! PERSIST_DIR))) |}).
Proof.
  unfold store_missing. intros H. unfold load_vector_store_and_index.
  erewrite bind_run by apply os_path_exists_run.
  destruct (fs s !! PERSIST_DIR) as [d|] eqn:Ed.
  - rewrite bool_decide_eq_true_2 by eauto. cbn [negb].
    erewrite bind_run by reflexivity.
    erewrite bind_run by reflexivity.
    unfold PersistentClient, os_makedirs, get_collection, try_except.
    unfold mbind, M_bind, mret, M_ret, print, emit, modify_fs, get_state,
      sys_exit, raise, with_out, with_fs. cbn beta iota. cbn [fs uuid out].
    rewrite Ed. cbn [fs]. rewrite Ed. cbn [mbind option_bind]. rewrite H.
    cbn beta iota. cbn [fs uuid out is_Exception store_diagnostic].
    rewrite <- !app_assoc. reflexivity.
  - rewrite bool_decide_eq_false_2 by (intros [? ?]; congruence). cbn [negb].
    unfold mbind, M_bind, print, emit, sys_exit, raise, with_out.
    cbn beta iota. cbn [fs uuid out store_diagnostic].
    rewrite <- !app_assoc. reflexivity.
Qed.



Lemma create_query_engine_run (index : string * string) (s : State) :
  create_query_engine index s =
    (inr {| engine_index := index; similarity_top_k := 3;
            text_qa_template := SYSTEM_PROMPT_RAG; streaming := true |},
     with_out (PrintLine "Query engine created.")
       (with_out (PrintLine "Creating query engine (with streaming enabled)...") s)).
Proof. reflexivity. Qed.

(** C7: when the persistence directory or the configured collection in it
    does not exist, the query program exits with status 1 after printing
    the diagnostic of [load_vector_store_and_index]; the file system is
    left as it was, and nothing the run emitted is a request to the
    embedding model or to the language model. *)
Theorem missing_store_exits_before_model_call (stdin : list Input) (s : State) :
  store_missing s →
  let log : list Event :=
    (start_log
     ++ store_diagnostic (bool_decide (is_Some (fs s !! PERSIST_DIR)))) in
  run_script (main stdin) s
  = (1, {| fs := fs s; uuid := uuid s; out := out s ++ log |})
  ∧ existsb is_query_event log = false.
Proof.
  intros H log. split.
  - unfold run_script, main.
    erewrite bind_run by reflexivity.
    erewrite bind_run by reflexivity.
    erewrite bind_raise; cycle 1.
    { apply load_vector_store_and_index_missing. exact H. }
    cbn [fs uuid out with_out]. unfold log, start_log.
    rewrite <- !app_assoc. reflexivity.
  - unfold log. destruct (bool_decide _); reflexivity.
Qed.

(** C9: a line that matches [quit] or [exit] without regard to case ends
    the loop at once: the only output of the iteration is the prompt, so
    no query is issued for it and the lines after it are not read; when it
    is the first line of a session over an existing store, the program
    prints its closing lines and exits with status 0. *)
Theorem exit_keyword_terminates_cleanly (qe : QueryEngine) (text : string)
    (sigint : Interrupt) (rest : list Input) (s : State) :
  Str.eq_ignoring_case text "quit" ∨ Str.eq_ignoring_case text "exit" →
  while_true qe (Line text sigint :: rest) s
  = (inr tt, with_out (WriteText "You: ") s)
  ∧ ∀ d es,
      fs s !! PERSIST_DIR = Some d →
      dir_collections d !! COLLECTION_NAME = Some es →
      run_script (main (Line text sigint :: rest)) s
      = (0, {| fs := fs s; uuid := uuid s;
               out := out s ++ start_log ++ ready_log
                      ++ [WriteText "You: ";
                          PrintLine (Str.nl +:+ "Exiting chat.");
                          PrintLine "--- RAG Query Interface Closed ---"] |}).
Proof.
  intros H. apply mem_exit_keyword in H.
  assert (Hloop : ∀ qe s, while_true qe (Line text sigint :: rest) s
                          = (inr tt, with_out (WriteText "You: ") s)).
  { intros qe' s'. apply while_true_break, loop_body_returns, loop_try_exit, H. }
  split; [apply Hloop|].
  intros d es Ed Ec. unfold run_script, main.
  erewrite bind_run by reflexivity.
  erewrite bind_run by reflexivity.
  erewrite bind_run by (eapply load_vector_store_and_index_run; [exact Ed|exact Ec]).
  erewrite bind_run by apply create_query_engine_run.
  unfold run_chat_loop.
  erewrite bind_run; cycle 1.
  { erewrite bind_run by reflexivity.
    erewrite bind_run by apply Hloop. reflexivity. }
  unfold mbind, M_bind, print, emit, with_out. cbn [fs uuid out].
  unfold start_log, ready_log. rewrite <- !app_assoc. reflexivity.
Qed.

(** C3, as corrected: a [KeyboardInterrupt] raised anywhere in the [try]
    block (at the prompt, in the query, in the token stream) is caught by
    its own clause, which prints the exit notice and breaks: the loop is
    over, and the lines still on the terminal are not read. *)
Theorem interrupt_ends_chat_loop (qe : QueryEngine) (i : Input)
    (rest : list Input) (s s1 : State) :
  loop_try qe (Some i) s = (inl KeyboardInterrupt, s1) →
  let s2 :=
    with_out (PrintLine (Str.nl +:+ "Exiting due to KeyboardInterrupt.")) s1 in
  loop_body qe (Some i) s = (inr Break, s2)
  ∧ while_true qe (i :: rest) s = (inr tt, s2).
Proof.
  intros H s2.
  assert (Hb : loop_body qe (Some i) s = (inr Break, s2)).
  { rewrite (loop_body_raises _ _ _ _ _ H). reflexivity. }
  split; [exact Hb|]. apply while_true_break, Hb.
Qed.

(** C6, as corrected: an exception of class [Exception] other than
    [EOFError], raised anywhere in the [try] block, is caught; the loop
    prints the diagnostic with the message of the exception and the stack
    trace, and goes on with the next line. *)
Theorem query_error_keeps_session (qe : QueryEngine) (i : Input)
    (rest : list Input) (s s1 : State) (e : PyExc) :
  is_Exception e = true → e ≠ EOFError →
  loop_try qe (Some i) s = (inl e, s1) →
  let s2 :=
    with_out (Traceback e)
      (with_out (PrintLine (Str.nl +:+ "An error occurred: " +:+ str_exc e)) s1) in
  loop_body qe (Some i) s = (inr Continue, s2)
  ∧ while_true qe (i :: rest) s = while_true qe rest s2.
Proof.
  intros He Hne H s2.
  assert (Hb : loop_body qe (Some i) s = (inr Continue, s2)).
  { rewrite (loop_body_raises _ _ _ _ _ H).
    destruct e; try done. }
  split; [exact Hb|]. apply while_true_continue, Hb.
Qed.


Lemma appends_ret {A : Type} (a : A) : appends (mret a : M A).
Proof. intros s. exists []. cbn. by rewrite app_nil_r. Qed.

Lemma appends_raise {A : Type} (e : PyExc) : appends (raise e : M A).
Proof. intros s. exists []. cbn. by rewrite app_nil_r. Qed.

Lemma appends_emit (e : Event) : appends (emit e).
Proof. intros s. exists [e]. reflexivity. Qed.

Lemma appends_print (line : string) : appends (print line).
Proof. apply appends_emit. Qed.

Lemma appends_get_state : appends get_state.
Proof. intros s. exists []. cbn. by rewrite app_nil_r. Qed.

Lemma appends_bind {A B : Type} (m : M A) (f : A -> M B) :
  appends m → (∀ a, appends (f a)) → appends (m ≫= f).
Proof.
  intros Hm Hf s. unfold mbind, M_bind. destruct (Hm s) as [evs Hevs].
  destruct (m s) as [[e|a] s1]; cbn [snd] in *.
  - by exists evs.
  - destruct (Hf a s1) as [evs' Hevs']. exists (evs ++ evs').
    by rewrite Hevs', Hevs, app_assoc.
Qed.

Lemma appends_try_except {A : Type} (body : M A) (handler : PyExc -> option (M A)) :
  appends body → (∀ e h, handler e = Some h → appends h) →
  appends (try_except body handler).
Proof.
  intros Hb Hh s. unfold try_except. destruct (Hb s) as [evs Hevs].
  destruct (body s) as [[e|a] s1]; cbn [snd] in *; [|by exists evs].
  destruct (handler e) as [h|] eqn:E; [|by exists evs].
  destruct (Hh e h E s1) as [evs' Hevs']. exists (evs ++ evs').
  by rewrite Hevs', Hevs, app_assoc.
Qed.

Lemma appends_print_tokens (tokens : list string) : appends (print_tokens tokens).
Proof.
  induction tokens as [|t tokens IH]; cbn [print_tokens].
  - apply appends_ret.
  - apply appends_bind; [apply appends_emit|]. intros _. exact IH.
Qed.

Lemma appends_for_token_in (gen : TokenStream) : appends (for_token_in gen).
Proof.
  unfold for_token_in. apply appends_bind; [apply appends_print_tokens|].
  intros _. destruct gen.2; [apply appends_raise|apply appends_ret].
Qed.

Lemma appends_print_sources (i : nat) (ns : list NodeWithScore) :
  appends (print_sources i ns).
Proof.
  revert i. induction ns as [|n ns IH]; intros i; cbn [print_sources].
  - apply appends_ret.
  - apply appends_bind; [apply appends_print|]. intros _.
    apply appends_bind; [apply appends_print|]. intros _.
    apply appends_bind.
    { destruct (node_score n); [apply appends_print|apply appends_raise]. }
    intros _. apply appends_bind; [apply appends_print|]. intros _. apply IH.
Qed.

Lemma appends_loop_except (e : PyExc) (h : M LoopCtl) :
  loop_except e = Some h → appends h.
Proof.
  destruct e; cbn; intros [= <-];
    repeat (apply appends_bind; [first [apply appends_print|apply appends_emit]|intros _]);
    apply appends_ret.
Qed.


Ltac appends_step :=
  first [ apply appends_ret | apply appends_raise | apply appends_print
        | apply appends_emit | apply appends_get_state
        | apply appends_for_token_in | apply appends_print_sources
        | apply appends_bind; [|intros ?] ].

Lemma bind_assoc {A B D : Type} (m : M A) (f : A -> M B) (g : B -> M D) s :
  ((m ≫= f) ≫= g) s = (m ≫= (λ a, f a ≫= g)) s.
Proof.
  unfold mbind, M_bind. destruct (m s) as [[e|a] s1]; reflexivity.
Qed.

Lemma loop_body_extends (qe : QueryEngine) (tty : option Input) (s : State) :
  ∃ evs, out (loop_body qe tty s).2 = out (loop_try qe tty s).2 ++ evs.
Proof.
  unfold loop_body, try_except.
  destruct (loop_try qe tty s) as [[e|ctl] s1]; cbn [snd].
  - destruct (loop_except e) as [h|] eqn:E.
    + apply (appends_loop_except e h E).
    + exists []. by rewrite app_nil_r.
  - exists []. by rewrite app_nil_r.
Qed.

(** A line that is neither an exit keyword nor blank goes to the query
    engine as it was typed. *)
Lemma loop_body_queries (qe : QueryEngine) (text : string) (s : State) :
  mem (lower text) ["quit"; "exit"] = false →
  truthy (strip text) = true →
  ∃ evs, out (loop_body qe (Some (Line text NoInterrupt)) s).2
         = out s ++ [WriteText "You: ";
                     PrintLine (nl +:+ "Querying with: '" +:+ text +:+ "'...");
                     EmbedCall text] ++ evs.
Proof.
  intros Hmem Htext.
  destruct (loop_body_extends qe (Some (Line text NoInterrupt)) s) as [evs2 ->].
  assert (∃ evs, out (loop_try qe (Some (Line text NoInterrupt)) s).2
                 = (out s ++ [WriteText "You: ";
                     PrintLine (nl +:+ "Querying with: '" +:+ text +:+ "'...");
                     EmbedCall text]) ++ evs) as [evs1 ->].
  { unfold loop_try, input.
    erewrite bind_run by reflexivity. cbn beta iota. rewrite Hmem, Htext.
    erewrite bind_run by reflexivity.
    unfold query_engine_query. rewrite !bind_assoc.
    erewrite bind_run by reflexivity.
    match goal with |- context [(?K ≫= ?f) ?s3] =>
      destruct (appends_bind K f) with (s := s3) as [evs Hevs] end.
    - destruct (embed text) as [e|qv]; [appends_step|].
      appends_step; [appends_step|].
      destruct (collection_entries _ _); [|appends_step].
      appends_step; [appends_step|].
      destruct (streaming qe); [appends_step|].
      destruct (generate _) as [tokens [e|]]; appends_step.
    - intros r. appends_step; [appends_step|].
      appends_step.
      { destruct r as [gen ns|[t|] ns].
        - appends_step; appends_step.
        - appends_step; [appends_step|]. destruct (truthy t); appends_step.
        - appends_step; appends_step. }
      do 3 (appends_step; [appends_step|]).
      appends_step; [destruct (source_nodes r); appends_step|].
      appends_step; appends_step.
    - exists evs. rewrite Hevs. unfold with_out. cbn [out].
      rewrite <- !app_assoc. reflexivity. }
  exists (evs1 ++ evs2). by rewrite <- !app_assoc.
Qed.


(** C10: an exit keyword (in any case) with white space before or after it
    would match once stripped, but the test lowercases the raw line, so
    the line is not an exit command; it is not blank after stripping, and
    it is sent to the query engine as typed: the iteration prints the
    prompt and the notice with the raw line, and asks for the embedding
    of the raw line. *)
Theorem padded_exit_keyword_is_queried (qe : QueryEngine)
    (pre kw post : string) (s : State) :
  eq_ignoring_case kw "quit" ∨ eq_ignoring_case kw "exit" →
  all_space pre = true → all_space post = true →
  pre +:+ post ≠ EmptyString →
  let text := pre +:+ kw +:+ post in
  mem (lower (strip text)) ["quit"; "exit"] = true
  ∧ mem (lower text) ["quit"; "exit"] = false
  ∧ truthy (strip text) = true
  ∧ ∃ evs, out (loop_body qe (Some (Line text NoInterrupt)) s).2
           = out s ++ [WriteText "You: ";
                       PrintLine (nl +:+ "Querying with: '" +:+ text +:+ "'...");
                       EmbedCall text] ++ evs.
Proof.
  intros Hkw Hpre Hpost Hpad text.
  assert (Hlen : String.length kw = 4%nat).
  { destruct Hkw as [H|H]; apply length_eq_ignoring_case in H; exact H. }
  assert (Hstrip : strip text = kw).
  { apply strip_padded; [exact Hpre|exact Hpost| |].
    - by apply no_space_exit_keyword.
    - intros ->. discriminate Hlen. }
  assert (Hnot : mem (lower text) ["quit"; "exit"] = false).
  { apply not_true_is_false. intros Hm%mem_exit_keyword_length.
    rewrite length_lower in Hm. unfold text in Hm.
    rewrite !length_append, Hlen in Hm.
    apply Hpad. destruct pre, post; [reflexivity|cbn in Hm; lia..]. }
  assert (Htext : truthy (strip text) = true).
  { rewrite Hstrip. destruct kw; [discriminate Hlen|reflexivity]. }
  split; [rewrite Hstrip; by apply mem_exit_keyword|].
  split; [exact Hnot|]. split; [exact Htext|].
  by apply loop_body_queries.
Qed.


(** ** Retrieval *)

Lemma length_insert_ranked (x : Score * Entry) (l : list (Score * Entry)) :
  length (insert_ranked x l) = S (length l).
Proof.
  induction l as [|y l IH]; [reflexivity|]. cbn [insert_ranked].
  destruct (score_leb x.1 y.1); cbn [length]; [by rewrite IH|reflexivity].
Qed.

Lemma length_rank (l : list (Score * Entry)) : length (rank l) = length l.
Proof.
  unfold rank. induction l as [|x l IH]; [reflexivity|].
  cbn [foldr length]. by rewrite length_insert_ranked, IH.
Qed.

Lemma length_retrieve (k : nat) (qv : Vector) (es : list Entry) :
  length (retrieve k qv es) = Nat.min k (length es).
Proof.
  unfold retrieve. by rewrite length_fmap, length_take, length_rank, length_fmap.
Qed.

(** The nodes of a response are the ones retrieved from the collection as
    it is when the query runs. *)
Lemma query_engine_query_nodes (qe : QueryEngine) (text : string)
    (s s' : State) (r : Response) :
  query_engine_query qe text s = (inr r, s') →
  ∃ qv es, embed text = inr qv
           ∧ collection_entries s (engine_index qe) = Some es
           ∧ source_nodes r = retrieve (similarity_top_k qe) qv es.
Proof.
  unfold query_engine_query. erewrite bind_run by reflexivity.
  destruct (embed text) as [e|qv]; [discriminate|].
  erewrite bind_run by reflexivity.
  change (collection_entries (with_out (EmbedCall text) s) (engine_index qe))
    with (collection_entries s (engine_index qe)).
  destruct (collection_entries s (engine_index qe)) as [es|]; [|discriminate].
  erewrite bind_run by reflexivity.
  intros H. exists qv, es. split; [reflexivity|]. split; [reflexivity|].
  destruct (streaming qe).
  - injection H as <- _. reflexivity.
  - destruct (generate _) as [tokens [e|]]; [discriminate|].
    injection H as <- _. reflexivity.
Qed.

(** C8: a query that the engine of [create_query_engine] answers returns
    [min 3 n] source nodes, for [n] the number of entries of the
    collection when the query runs. *)
Theorem query_returns_min_k_sources (index : string * string) (s0 s1 : State)
    (qe : QueryEngine) (text : string) (s s' : State) (r : Response)
    (es : list Entry) :
  create_query_engine index s0 = (inr qe, s1) →
  collection_entries s index = Some es →
  query_engine_query qe text s = (inr r, s') →
  length (source_nodes r) = Nat.min 3 (length es).
Proof.
  rewrite create_query_engine_run. intros [= <- _] Hes Hq.
  apply query_engine_query_nodes in Hq as (qv & es' & _ & Hes' & ->).
  cbn [engine_index similarity_top_k] in *.
  rewrite Hes in Hes'. injection Hes' as <-. apply length_retrieve.
Qed.

(** ** Where an interrupt reaches the loop *)

Lemma interrupt_at_prompt (qe : QueryEngine) (s : State) :
  loop_try qe (Some CtrlC) s
  = (inl KeyboardInterrupt, with_out (WriteText "You: ") s).
Proof. reflexivity. Qed.

Lemma interrupt_during_query (qe : QueryEngine) (text : string) (s : State) :
  mem (lower text) ["quit"; "exit"] = false →
  truthy (strip text) = true →
  loop_try qe (Some (Line text DuringQuery)) s
  = (inl KeyboardInterrupt,
     with_out (PrintLine (nl +:+ "Querying with: '" +:+ text +:+ "'..."))
       (with_out (WriteText "You: ") s)).
Proof.
  intros Hmem Htext. unfold loop_try, input.
  erewrite bind_run by reflexivity. cbn beta iota. rewrite Hmem, Htext.
  reflexivity.
Qed.

Lemma print_tokens_run (tokens : list string) (s : State) :
  ∃ s', print_tokens tokens s = (inr tt, s').
Proof.
  revert s. induction tokens as [|t tokens IH]; intros s; cbn [print_tokens].
  - by eexists.
  - erewrite bind_run by reflexivity. apply IH.
Qed.

Lemma for_token_in_raises (gen : TokenStream) (e : PyExc) (s : State) :
  gen.2 = Some e → ∃ s', for_token_in gen s = (inl e, s').
Proof.
  intros H. unfold for_token_in. rewrite H.
  destruct (print_tokens_run gen.1 s) as [s' Hs'].
  exists s'. erewrite bind_run by exact Hs'. reflexivity.
Qed.

Lemma interrupt_during_stream (qe : QueryEngine) (text : string) (n : nat)
    (s s1 : State) (tokens : list string) (fin : option PyExc)
    (ns : list NodeWithScore) :
  mem (lower text) ["quit"; "exit"] = false →
  truthy (strip text) = true →
  query_engine_query qe text
    (with_out (PrintLine (nl +:+ "Querying with: '" +:+ text +:+ "'..."))
       (with_out (WriteText "You: ") s))
  = (inr (StreamingResponse (tokens, fin) ns), s1) →
  (n < length tokens)%nat ∨ fin = None →
  ∃ s2, loop_try qe (Some (Line text (DuringStream n))) s
        = (inl KeyboardInterrupt, s2).
Proof.
  intros Hmem Htext Hq Hn. unfold loop_try, input.
  erewrite bind_run by reflexivity. cbn beta iota. rewrite Hmem, Htext.
  erewrite bind_run by reflexivity.
  erewrite bind_run by exact Hq.
  erewrite bind_run by reflexivity.
  assert (Hgen : (interrupted (DuringStream n) (tokens, fin)).2
                 = Some KeyboardInterrupt).
  { unfold interrupted. cbn [fst snd].
    destruct (Nat.ltb_spec n (length tokens)) as [Hlt|Hge]; [reflexivity|].
    destruct Hn as [Hn| ->]; [lia|reflexivity]. }
  match goal with |- context [mbind _ (mbind _ (for_token_in ?g)) ?s3] =>
    destruct (for_token_in_raises g KeyboardInterrupt s3 Hgen) as [s4 Hs4] end.
  exists s4. erewrite bind_raise; [reflexivity|].
  erewrite bind_raise; [reflexivity|exact Hs4].
Qed.

End QueryFacts.

(** ** The query script on concrete sessions *)

(** C3, as stated, fails: the user interrupts the first query; the body
    breaks instead of going back to the prompt, and the session is over:
    the program prompts once, never sends the second line to a model, and
    exits with status 0. *)
Lemma interrupted_query_ends_session :
  let s := Demo.populated Demo.four_entries in
  let i := Line Demo.question DuringQuery in
  let r := run_script (QueryRag.main [i; Line "And then?" NoInterrupt]) s in
  (QueryRag.loop_body Demo.engine (Some i) s).1 = inr Break
  ∧ (QueryRag.loop_body Demo.engine (Some i) s).1 ≠ inr Continue
  ∧ r.1 = 0
  ∧ length (List.filter QueryRag.is_prompt (out r.2)) = 1%nat
  ∧ existsb QueryRag.is_query_event (out r.2) = false.
Proof.
  intros s i r.
  assert (H : (QueryRag.loop_body Demo.engine (Some i) s).1 = inr Break)
    by (vm_compute; reflexivity).
  split; [exact H|]. split; [rewrite H; discriminate|].
  repeat split; vm_compute; reflexivity.
Qed.

Lemma interrupt_ends_chat_loop_witness :
  let s := Demo.populated Demo.four_entries in
  let i := Line Demo.question DuringQuery in
  let s1 := (QueryRag.loop_try Demo.engine (Some i) s).2 in
  let s2 :=
    with_out (PrintLine (Str.nl +:+ "Exiting due to KeyboardInterrupt.")) s1 in
  QueryRag.loop_try Demo.engine (Some i) s = (inl KeyboardInterrupt, s1)
  ∧ QueryRag.loop_body Demo.engine (Some i) s = (inr Break, s2)
  ∧ QueryRag.while_true Demo.engine [i; Line "And then?" NoInterrupt] s
    = (inr tt, s2).
Proof.
  intros s i s1 s2.
  assert (H : QueryRag.loop_try Demo.engine (Some i) s
              = (inl KeyboardInterrupt, s1)) by (vm_compute; reflexivity).
  split; [exact H|].
  exact (interrupt_ends_chat_loop Demo.engine i
           [Line "And then?" NoInterrupt] s s1 H).
Defined.

(** C6, as stated, fails: the embedding request of the query raises
    [EOFError], an error of class [Exception]; the clause for the end of
    input takes it, the body breaks, no stack trace is printed, and the
    session is over after one prompt. *)
Lemma eof_error_in_query_ends_session :
  let s := Demo.populated Demo.four_entries in
  let i := Line "!how" NoInterrupt in
  let r := run_script (QueryRag.main [i; Line "And then?" NoInterrupt]) s in
  (query_engine_query Demo.engine "!how" s).1 = inl EOFError
  ∧ is_Exception EOFError = true
  ∧ (QueryRag.loop_body Demo.engine (Some i) s).1 = inr Break
  ∧ (QueryRag.loop_body Demo.engine (Some i) s).1 ≠ inr Continue
  ∧ existsb QueryRag.is_traceback (out r.2) = false
  ∧ length (List.filter QueryRag.is_prompt (out r.2)) = 1%nat.
Proof.
  intros s i r.
  assert (H : (QueryRag.loop_body Demo.engine (Some i) s).1 = inr Break)
    by (vm_compute; reflexivity).
  split; [vm_compute; reflexivity|]. split; [reflexivity|].
  split; [exact H|]. split; [rewrite H; discriminate|].
  split; vm_compute; reflexivity.
Qed.

Lemma query_error_keeps_session_witness :
  let s := Demo.populated Demo.four_entries in
  let i := Line "?how" NoInterrupt in
  let e := RuntimeError "model unreachable" in
  let s1 := (QueryRag.loop_try Demo.engine (Some i) s).2 in
  let s2 :=
    with_out (Traceback e)
      (with_out (PrintLine (Str.nl +:+ "An error occurred: " +:+ str_exc e)) s1) in
  QueryRag.loop_try Demo.engine (Some i) s = (inl e, s1)
  ∧ QueryRag.loop_body Demo.engine (Some i) s = (inr Continue, s2)
  ∧ QueryRag.while_true Demo.engine [i; Line "And then?" NoInterrupt] s
    = QueryRag.while_true Demo.engine [Line "And then?" NoInterrupt] s2.
Proof.
  intros s i e s1 s2.
  assert (H : QueryRag.loop_try Demo.engine (Some i) s = (inl e, s1))
    by (vm_compute; reflexivity).
  split; [exact H|].
  apply (query_error_keeps_session Demo.engine i
           [Line "And then?" NoInterrupt] s s1 e); [reflexivity|discriminate|exact H].
Defined.

Lemma missing_store_exits_before_model_call_witness :
  let s := Demo.no_collection in
  let stdin := [Line Demo.question NoInterrupt] in
  let log :=
    QueryRag.start_log
    ++ QueryRag.store_diagnostic
         (bool_decide (is_Some (fs s !! QueryRag.PERSIST_DIR))) in
  QueryRag.store_missing s
  ∧ run_script (QueryRag.main stdin) s
    = (1, {| fs := fs s; uuid := uuid s; out := out s ++ log |})
  ∧ existsb QueryRag.is_query_event log = false.
Proof.
  intros s stdin log.
  assert (H : QueryRag.store_missing s) by (vm_compute; reflexivity).
  split; [exact H|].
  exact (missing_store_exits_before_model_call stdin s H).
Defined.

(** With the store in place the same session does reach both models. *)
Example query_calls_models :
  let r := run_script (QueryRag.main [Line Demo.question NoInterrupt])
             (Demo.populated Demo.four_entries) in
  r.1 = 0
  ∧ existsb QueryRag.is_model_call (out r.2) = true
  ∧ List.filter QueryRag.is_query_event (out r.2)
    = [EmbedCall Demo.question;
       LlmCall (QueryRag.SYSTEM_PROMPT_RAG
                  (context_str Demo.sources) Demo.question)].
Proof. repeat split; vm_compute; reflexivity. Qed.

Lemma mixed_case_exit_matches : Str.eq_ignoring_case "ExIt" "exit".
Proof.
  repeat first
    [ apply Str.eic_nil
    | apply Str.eic_cons;
      [first [ left; reflexivity | right; left; reflexivity
             | right; right; reflexivity ]|] ].
Defined.

Lemma exit_keyword_terminates_cleanly_witness :
  let s := Demo.populated Demo.four_entries in
  let rest := [Line Demo.question NoInterrupt] in
  (Str.eq_ignoring_case "ExIt" "quit" ∨ Str.eq_ignoring_case "ExIt" "exit")
  ∧ QueryRag.while_true Demo.engine (Line "ExIt" NoInterrupt :: rest) s
    = (inr tt, with_out (WriteText "You: ") s)
  ∧ run_script (QueryRag.main (Line "ExIt" NoInterrupt :: rest)) s
    = (0, {| fs := fs s; uuid := uuid s;
             out := out s ++ QueryRag.start_log ++ QueryRag.ready_log
                    ++ [WriteText "You: ";
                        PrintLine (Str.nl +:+ "Exiting chat.");
                        PrintLine "--- RAG Query Interface Closed ---"] |}).
Proof.
  intros s rest.
  assert (H : Str.eq_ignoring_case "ExIt" "quit"
              ∨ Str.eq_ignoring_case "ExIt" "exit")
    by (right; exact mixed_case_exit_matches).
  split; [exact H|].
  split.
  - exact (proj1 (exit_keyword_terminates_cleanly Demo.engine "ExIt"
                    NoInterrupt rest s H)).
  - apply (proj2 (exit_keyword_terminates_cleanly Demo.engine "ExIt"
                    NoInterrupt rest s H)
             {| dir_files := [];
                dir_collections :=
                  {[ QueryRag.COLLECTION_NAME := Demo.four_entries ]} |}
             Demo.four_entries); vm_compute; reflexivity.
Defined.

Lemma padded_exit_keyword_is_queried_witness :
  let s := Demo.populated Demo.four_entries in
  let text := " " +:+ "exit" +:+ " " in
  Str.mem (Str.lower (Str.strip text)) ["quit"; "exit"] = true
  ∧ Str.mem (Str.lower text) ["quit"; "exit"] = false
  ∧ Str.truthy (Str.strip text) = true
  ∧ ∃ evs, out (QueryRag.loop_body Demo.engine
                  (Some (Line text NoInterrupt)) s).2
           = out s ++ [WriteText "You: ";
                       PrintLine (Str.nl +:+ "Querying with: '" +:+ text
                                  +:+ "'...");
                       EmbedCall text] ++ evs.
Proof.
  intros s text.
  apply (padded_exit_keyword_is_queried Demo.engine " " "exit" " " s).
  - right.
    repeat first
      [ apply Str.eic_nil | apply Str.eic_cons; [left; reflexivity|] ].
  - reflexivity.
  - reflexivity.
  - discriminate.
Defined.

Lemma query_returns_min_k_sources_witness :
  let s := Demo.populated Demo.four_entries in
  let index := (QueryRag.PERSIST_DIR, QueryRag.COLLECTION_NAME) in
  let res := query_engine_query Demo.engine Demo.question s in
  QueryRag.create_query_engine index s = (inr Demo.engine,
                                          (QueryRag.create_query_engine index s).2)
  ∧ collection_entries s index = Some Demo.four_entries
  ∧ res = (inr Demo.answer, res.2)
  ∧ length (source_nodes Demo.answer) = Nat.min 3 (length Demo.four_entries).
Proof.
  intros s index res.
  assert (H1 : QueryRag.create_query_engine index s
               = (inr Demo.engine, (QueryRag.create_query_engine index s).2))
    by reflexivity.
  assert (H2 : collection_entries s index = Some Demo.four_entries)
    by (vm_compute; reflexivity).
  assert (H3 : res = (inr Demo.answer, res.2)) by (vm_compute; reflexivity).
  split; [exact H1|]. split; [exact H2|]. split; [exact H3|].
  exact (query_returns_min_k_sources index s _ Demo.engine Demo.question
           s res.2 Demo.answer Demo.four_entries H1 H2 H3).
Defined.

(** A collection of two entries yields two sources, the closer first. *)
Example two_entries_two_sources :
  match (query_engine_query Demo.engine Demo.question
           (Demo.populated [Demo.old_entry; Demo.note_entry])).1 with
  | inr r => node_id <$> source_nodes r = [8; 7]%nat
  | inl _ => False
  end.
Proof. vm_compute. reflexivity. Qed.

(** * Further properties of the two scripts *)

(** ** More on the text primitives *)

Section MoreStrFacts.

Import Str.

Lemma same_letter_lower_char (a : ascii) : same_letter a (lower_char a).
Proof.
  destruct a as [[] [] [] [] [] [] [] []];
    first [ left; reflexivity | right; left; reflexivity ].
Qed.

Lemma eq_ignoring_case_lower (s : string) : eq_ignoring_case s (lower s).
Proof.
  induction s as [|c s IH]; [constructor|].
  cbn [lower]. constructor; [apply same_letter_lower_char|exact IH].
Qed.

Lemma mem_exit_keyword_inv (s : string) :
  mem s ["quit"; "exit"] = true → s = "quit" ∨ s = "exit".
Proof.
  unfold mem. cbn [existsb]. rewrite !orb_true_iff.
  intros [H|[H|H]]; [left|right|done]; by apply String.eqb_eq in H.
Qed.

(** X1: The exit test of line 88 accepts exactly the lines that match [quit]
    or [exit] without regard to case: no other line is an exit command. *)
Theorem exit_test_is_case_insensitive_match (text : string) :
  mem (lower text) ["quit"; "exit"] = true
  ↔ eq_ignoring_case text "quit" ∨ eq_ignoring_case text "exit".
Proof.
  split; [|apply mem_exit_keyword].
  intros [H|H]%mem_exit_keyword_inv; [left|right];
    rewrite <- H; apply eq_ignoring_case_lower.
Qed.

Lemma all_space_lower (s : string) : all_space (lower s) = all_space s.
Proof.
  induction s as [|c s IH]; [reflexivity|].
  cbn [lower all_space]. by rewrite isspace_lower_char, IH.
Qed.

Lemma lstrip_blank (s : string) : all_space s = true → lstrip s = EmptyString.
Proof.
  induction s as [|c s IH]; [reflexivity|]. cbn [all_space].
  intros [Hc Hs]%andb_true_iff. cbn [lstrip]. rewrite Hc. by apply IH.
Qed.

Lemma strip_blank (s : string) : all_space s = true → strip s = EmptyString.
Proof. intros H. unfold strip. by rewrite lstrip_blank. Qed.

Lemma blank_is_no_exit_keyword (s : string) :
  all_space s = true → mem (lower s) ["quit"; "exit"] = false.
Proof.
  intros H. apply not_true_is_false. intros Hm%mem_exit_keyword_inv.
  rewrite <- all_space_lower in H. destruct Hm as [Hm|Hm];
    rewrite Hm in H; discriminate H.
Qed.

End MoreStrFacts.

Section SessionFacts.

Import Str QueryRag.

Context `{C : Collaborators}.

Lemma loop_body_blank (qe : QueryEngine) (text : string) (sigint : Interrupt)
    (s : State) :
  all_space text = true →
  loop_body qe (Some (Line text sigint)) s
  = (inr Continue,
     with_out (PrintLine "Please enter a prompt.")
       (with_out (WriteText "You: ") s)).
Proof.
  intros H. apply loop_body_returns. unfold loop_try, input.
  erewrite bind_run by reflexivity. cbn beta iota.
  rewrite blank_is_no_exit_keyword, strip_blank by exact H. reflexivity.
Qed.

(** X2: Lines 90 and 125-126: a blank line (empty, or white space only) is
    answered with the notice and nothing else; no query is made, and the
    loop goes on to the next line. *)
Theorem blank_line_reprompts (qe : QueryEngine) (text : string)
    (sigint : Interrupt) (rest : list Input) (s : State) :
  all_space text = true →
  let s1 :=
    with_out (PrintLine "Please enter a prompt.")
      (with_out (WriteText "You: ") s) in
  loop_body qe (Some (Line text sigint)) s = (inr Continue, s1)
  ∧ while_true qe (Line text sigint :: rest) s = while_true qe rest s1.
Proof.
  intros H s1. pose proof (loop_body_blank qe text sigint s H) as Hb.
  split; [exact Hb|]. by apply while_true_continue.
Qed.

Lemma print_tokens_out (tokens : list string) (s : State) :
  print_tokens tokens s
  = (inr tt, {| fs := fs s; uuid := uuid s;
                out := out s ++ (WriteText <$> tokens) |}).
Proof.
  revert s. induction tokens as [|t tokens IH]; intros s; cbn [print_tokens].
  - cbn. rewrite app_nil_r. by destruct s.
  - erewrite bind_run by reflexivity. rewrite IH. unfold with_out.
    cbn [fs uuid out]. rewrite fmap_cons, <- app_assoc. reflexivity.
Qed.

Lemma for_token_in_out (gen : TokenStream) (s : State) :
  for_token_in gen s
  = (match gen.2 with Some e => inl e | None => inr tt end,
     {| fs := fs s; uuid := uuid s; out := out s ++ (WriteText <$> gen.1) |}).
Proof.
  unfold for_token_in. erewrite bind_run by apply print_tokens_out.
  destruct gen.2; reflexivity.
Qed.

(** X3: Lines 98-99: the tokens of the stream are written in the order they
    arrive, each one as it is and none twice; when the stream breaks, what
    arrived before is on the terminal and the exception goes on. *)
Theorem tokens_are_written_in_order (gen : TokenStream) (s : State) :
  for_token_in gen s
  = (match gen.2 with Some e => inl e | None => inr tt end,
     {| fs := fs s; uuid := uuid s; out := out s ++ (WriteText <$> gen.1) |}).
Proof. apply for_token_in_out. Qed.

Lemma file_label_spec (n : NodeWithScore) :
  match node_metadata n with
  | Some md =>
      if bool_decide (md = ∅) then "N/A" else default "N/A" (md !! "file_name")
  | None => "N/A"
  end = file_label n.
Proof.
  unfold file_label. destruct (node_metadata n) as [md|]; [|reflexivity].
  cbn [mbind option_bind]. case_bool_decide as E; [|reflexivity].
  rewrite E, lookup_empty. reflexivity.
Qed.

Lemma print_sources_out (i : nat) (ns : list NodeWithScore) (s : State) :
  Forall (fun n => is_Some (node_score n)) ns →
  print_sources i ns s
  = (inr tt, {| fs := fs s; uuid := uuid s; out := out s ++ source_log i ns |}).
Proof.
  intros H. revert i s. induction H as [|n ns [sc Hsc] _ IH]; intros i s.
  - cbn. rewrite app_nil_r. by destruct s.
  - cbn [print_sources source_log]. rewrite Hsc, file_label_spec.
    do 4 (erewrite bind_run by reflexivity). rewrite IH.
    unfold with_out, source_block. cbn [fs uuid out].
    rewrite <- !app_assoc. reflexivity.
Qed.

Lemma length_source_log (i : nat) (ns : list NodeWithScore) :
  Forall (fun n => is_Some (node_score n)) ns →
  length (source_log i ns) = (4 * length ns)%nat.
Proof.
  intros H. revert i. induction H as [|n ns [sc Hsc] _ IH]; intros i.
  - reflexivity.
  - cbn [source_log]. rewrite Hsc, length_app, IH. cbn [length source_block]. lia.
Qed.

(** X4: Lines 116-121: when every source has a score, the listing never fails
    and prints four lines per source, numbered from [i + 1] in the order
    of the list; the file line shows the [file_name] of the metadata and
    [N/A] when the metadata is missing, empty or without that key. *)
Theorem sources_are_listed_in_order (i : nat) (ns : list NodeWithScore)
    (s : State) :
  Forall (fun n => is_Some (node_score n)) ns →
  print_sources i ns s
  = (inr tt, {| fs := fs s; uuid := uuid s; out := out s ++ source_log i ns |})
  ∧ length (source_log i ns) = (4 * length ns)%nat.
Proof.
  intros H. split; [by apply print_sources_out|by apply length_source_log].
Qed.

End SessionFacts.

Section AnswerFacts.

Import Str QueryRag.

Context `{C : Collaborators}.

Lemma retrieve_scored (k : nat) (qv : Vector) (es : list Entry) :
  Forall (fun n => is_Some (node_score n)) (retrieve k qv es).
Proof.
  unfold retrieve. apply Forall_fmap, Forall_true. intros se. by eexists.
Qed.

Lemma for_token_in_complete (gen : TokenStream) (s : State) :
  gen.2 = None →
  for_token_in gen s
  = (inr tt, {| fs := fs s; uuid := uuid s;
                out := out s ++ (WriteText <$> gen.1) |}).
Proof. intros H. rewrite for_token_in_out, H. reflexivity. Qed.

(** X5: Lines 91-124: when the engine answers a query line of ASCII
    characters (one that is no exit keyword and not blank) with a
    complete stream, the iteration prints the answer header, the tokens
    in order, the separator and timing, then the sources (or the notice
    that none was retrieved) and the closing separator, and goes on to
    the next line. *)
Theorem answered_query_output (qe : QueryEngine) (text : string)
    (s s1 : State) (tokens : list string) (ns : list NodeWithScore) :
  ascii_only text = true →
  mem (lower text) ["quit"; "exit"] = false →
  truthy (strip text) = true →
  query_engine_query qe text
    (with_out (PrintLine (nl +:+ "Querying with: '" +:+ text +:+ "'..."))
       (with_out (WriteText "You: ") s))
  = (inr (StreamingResponse (tokens, None) ns), s1) →
  loop_body qe (Some (Line text NoInterrupt)) s
  = (inr Continue,
     {| fs := fs s1; uuid := uuid s1; out := out s1 ++ answer_log tokens ns |}).
Proof.
  intros _ Hmem Htext Hq. apply loop_body_returns.
  assert (Hns : Forall (fun n => is_Some (node_score n)) ns).
  { apply query_engine_query_nodes in Hq as (qv & es & _ & _ & Hns).
    cbn [source_nodes] in Hns. rewrite Hns. apply retrieve_scored. }
  unfold loop_try, input.
  erewrite bind_run by reflexivity. cbn beta iota. rewrite Hmem, Htext.
  erewrite bind_run by reflexivity.
  erewrite bind_run by exact Hq.
  erewrite bind_run by reflexivity.
  erewrite bind_run; cycle 1.
  { erewrite bind_run by (apply for_token_in_complete; reflexivity).
    reflexivity. }
  do 3 (erewrite bind_run by reflexivity).
  cbn [source_nodes interrupted fst snd].
  erewrite bind_run; cycle 1.
  { instantiate (1 := {| fs := fs s1; uuid := uuid s1;
       out := out s1 ++ [PrintLine (nl +:+ "--- Assistant Response ---")]
              ++ (WriteText <$> tokens)
              ++ [PrintLine EmptyString; PrintLine "-------------------------";
                  PrintElapsed; PrintLine (nl +:+ "--- Retrieved Sources ---")]
              ++ match ns with
                 | [] => [PrintLine "  - No sources retrieved."]
                 | _ => source_log 0 ns
                 end |}).
    instantiate (1 := tt).
    destruct ns as [|n ns'].
    - unfold print, emit, with_out. cbn [fs uuid out].
      rewrite <- !app_assoc. reflexivity.
    - rewrite print_sources_out by exact Hns. unfold with_out.
      cbn [fs uuid out]. rewrite <- !app_assoc. reflexivity. }
  erewrite bind_run by reflexivity. unfold with_out, answer_log.
  cbn [fs uuid out mret M_ret]. rewrite <- !app_assoc. reflexivity.
Qed.

End AnswerFacts.

Section WholeSessionFacts.

Import Str QueryRag.

Context `{C : Collaborators}.

Lemma while_true_blank (qe : QueryEngine) (lines : list string) (s : State) :
  Forall (fun l => all_space l = true) lines →
  while_true qe ((fun l => Line l NoInterrupt) <$> lines) s
  = (inr tt,
     {| fs := fs s; uuid := uuid s;
        out := out s ++ blank_log (length lines)
               ++ [WriteText "You: ";
                   PrintLine (nl +:+ "Exiting due to EOF.")] |}).
Proof.
  intros H. revert s. induction H as [|l lines Hl _ IH]; intros s.
  - cbn [fmap list_fmap while_true]. erewrite bind_run by apply loop_body_eof.
    unfold with_out. cbn. rewrite <- !app_assoc. reflexivity.
  - rewrite fmap_cons.
    rewrite (while_true_continue _ _ _ _ _ (loop_body_blank qe l NoInterrupt s Hl)).
    rewrite IH. unfold with_out, blank_log. cbn [fs uuid out length replicate concat].
    rewrite <- !app_assoc. reflexivity.
Qed.

(** A session over an existing store reaches the loop with the engine of
    [create_query_engine]. *)
Lemma main_reaches_loop (stdin : list Input) (s : State) (d : Directory)
    (es : list Entry) :
  fs s !! PERSIST_DIR = Some d →
  dir_collections d !! COLLECTION_NAME = Some es →
  main stdin s
  = ((while_true
        {| engine_index := (PERSIST_DIR, COLLECTION_NAME);
           similarity_top_k := 3;
           text_qa_template := SYSTEM_PROMPT_RAG;
           streaming := true |} stdin
      ≫= λ _, print (nl +:+ "Exiting chat."))
     ≫= λ _, print "--- RAG Query Interface Closed ---")
    {| fs := fs s; uuid := uuid s; out := out s ++ start_log ++ ready_log |}.
Proof.
  intros Ed Ec. unfold main.
  erewrite bind_run by reflexivity.
  erewrite bind_run by reflexivity.
  erewrite bind_run by (eapply load_vector_store_and_index_run; [exact Ed|exact Ec]).
  erewrite bind_run by apply create_query_engine_run.
  unfold run_chat_loop. rewrite bind_assoc.
  erewrite bind_run by reflexivity.
  unfold with_out, start_log, ready_log. cbn [fs uuid out].
  rewrite <- !app_assoc. reflexivity.
Qed.

(** X6: Lines 82-90, 125-129 and 137: a chat loop that reads only blank
    lines (each empty or made of ASCII white space), down to no line at
    all, ends at the end of input: after the opening line each line is
    answered with the notice, the loop reports the end of input and
    prints its closing line, and [run_chat_loop] returns; the file system
    is as before and nothing was asked of the embedding or the language
    model. *)
Theorem blank_session_ends_at_eof (qe : QueryEngine) (lines : list string)
    (s : State) :
  Forall (fun l => all_space l = true) lines →
  let log :=
    [PrintLine (nl +:+ "Starting RAG chat. Type 'quit' or 'exit' to end.")]
    ++ blank_log (length lines) ++ eof_log in
  run_chat_loop qe ((fun l => Line l NoInterrupt) <$> lines) s
  = (inr tt, {| fs := fs s; uuid := uuid s; out := out s ++ log |})
  ∧ existsb is_query_event log = false.
Proof.
  intros H log. split.
  - unfold run_chat_loop.
    erewrite bind_run by reflexivity.
    erewrite bind_run by (apply while_true_blank; exact H).
    unfold print, emit, with_out, log, eof_log. cbn [fs uuid out].
    rewrite <- !app_assoc. reflexivity.
  - unfold log. cbn [app existsb is_query_event orb].
    rewrite existsb_app. apply orb_false_iff. split; [|reflexivity].
    clear. induction (length lines) as [|n IH]; [reflexivity|].
    unfold blank_log in *. cbn [replicate concat app existsb is_query_event orb].
    exact IH.
Qed.

End WholeSessionFacts.

Section ReadOnlyFacts.

Import Str QueryRag.

Context `{C : Collaborators}.

Lemma keeps_fs_ret {A : Type} (a : A) : keeps_fs (mret a : M A).
Proof. intros s. reflexivity. Qed.

Lemma keeps_fs_raise {A : Type} (e : PyExc) : keeps_fs (raise e : M A).
Proof. intros s. reflexivity. Qed.

Lemma keeps_fs_emit (e : Event) : keeps_fs (emit e).
Proof. intros s. reflexivity. Qed.

Lemma keeps_fs_print (line : string) : keeps_fs (print line).
Proof. intros s. reflexivity. Qed.

Lemma keeps_fs_get_state : keeps_fs get_state.
Proof. intros s. reflexivity. Qed.

Lemma keeps_fs_bind {A B : Type} (m : M A) (f : A -> M B) :
  keeps_fs m → (∀ a, keeps_fs (f a)) → keeps_fs (m ≫= f).
Proof.
  intros Hm Hf s. unfold mbind, M_bind. specialize (Hm s).
  destruct (m s) as [[e|a] s1]; cbn [snd] in *; [exact Hm|].
  by rewrite Hf.
Qed.

Lemma keeps_fs_try_except {A : Type} (body : M A)
    (handler : PyExc -> option (M A)) :
  keeps_fs body → (∀ e h, handler e = Some h → keeps_fs h) →
  keeps_fs (try_except body handler).
Proof.
  intros Hb Hh s. unfold try_except. specialize (Hb s).
  destruct (body s) as [[e|a] s1]; cbn [snd] in *; [|exact Hb].
  destruct (handler e) as [h|] eqn:E; [|exact Hb].
  by rewrite (Hh e h E).
Qed.

Ltac keeps_fs_step :=
  first [ apply keeps_fs_ret | apply keeps_fs_raise | apply keeps_fs_print
        | apply keeps_fs_emit | apply keeps_fs_get_state
        | apply keeps_fs_bind; [|intros ?] ].

Lemma keeps_fs_for_token_in (gen : TokenStream) : keeps_fs (for_token_in gen).
Proof. intros s. by rewrite for_token_in_out. Qed.

Lemma keeps_fs_print_sources (i : nat) (ns : list NodeWithScore) :
  keeps_fs (print_sources i ns).
Proof.
  revert i. induction ns as [|n ns IH]; intros i; cbn [print_sources].
  - keeps_fs_step.
  - do 2 (keeps_fs_step; [keeps_fs_step|]).
    keeps_fs_step; [destruct (node_score n); keeps_fs_step|].
    keeps_fs_step; [keeps_fs_step|]. apply IH.
Qed.

Lemma keeps_fs_query_engine_query (qe : QueryEngine) (text : string) :
  keeps_fs (query_engine_query qe text).
Proof.
  unfold query_engine_query. keeps_fs_step; [keeps_fs_step|].
  destruct (embed text) as [e|qv]; [keeps_fs_step|].
  keeps_fs_step; [keeps_fs_step|].
  destruct (collection_entries _ _); [|keeps_fs_step].
  keeps_fs_step; [keeps_fs_step|].
  destruct (streaming qe); [keeps_fs_step|].
  destruct (generate _) as [tokens [e|]]; keeps_fs_step.
Qed.

Lemma keeps_fs_loop_try (qe : QueryEngine) (tty : option Input) :
  keeps_fs (loop_try qe tty).
Proof.
  unfold loop_try. keeps_fs_step.
  { unfold input. keeps_fs_step; [keeps_fs_step|].
    destruct tty as [[text sigint|]|]; keeps_fs_step. }
  destruct a as [user_input sigint].
  destruct (mem _ _); [keeps_fs_step|].
  destruct (truthy _).
  2: { keeps_fs_step; keeps_fs_step. }
  keeps_fs_step; [keeps_fs_step|].
  keeps_fs_step.
  { destruct sigint; first [apply keeps_fs_query_engine_query|keeps_fs_step]. }
  rename a0 into r.
  keeps_fs_step; [keeps_fs_step|]. keeps_fs_step.
  { destruct r as [gen ns|[t|] ns].
    - keeps_fs_step; [apply keeps_fs_for_token_in|keeps_fs_step].
    - keeps_fs_step; [keeps_fs_step|]. destruct (truthy t); keeps_fs_step.
    - keeps_fs_step; keeps_fs_step. }
  do 3 (keeps_fs_step; [keeps_fs_step|]).
  keeps_fs_step.
  { destruct (source_nodes r); [keeps_fs_step|apply keeps_fs_print_sources]. }
  keeps_fs_step; keeps_fs_step.
Qed.

Lemma keeps_fs_loop_except (e : PyExc) (h : M LoopCtl) :
  loop_except e = Some h → keeps_fs h.
Proof.
  destruct e; cbn; intros [= <-];
    repeat (apply keeps_fs_bind;
            [first [apply keeps_fs_print|apply keeps_fs_emit]|intros _]);
    apply keeps_fs_ret.
Qed.

Lemma keeps_fs_loop_body (qe : QueryEngine) (tty : option Input) :
  keeps_fs (loop_body qe tty).
Proof.
  apply keeps_fs_try_except;
    [apply keeps_fs_loop_try|apply keeps_fs_loop_except].
Qed.

Lemma keeps_fs_while_true (qe : QueryEngine) (stdin : list Input) :
  keeps_fs (while_true qe stdin).
Proof.
  induction stdin as [|i rest IH]; cbn [while_true].
  - apply keeps_fs_bind; [apply keeps_fs_loop_body|intros _; apply keeps_fs_ret].
  - apply keeps_fs_bind; [apply keeps_fs_loop_body|].
    intros [|]; [exact IH|apply keeps_fs_ret].
Qed.

Lemma main_keeps_fs (stdin : list Input) (s : State) :
  fs (main stdin s).2 = fs s.
Proof.
  destruct (fs s !! PERSIST_DIR) as [d|] eqn:Ed.
  - destruct (dir_collections d !! COLLECTION_NAME) as [es|] eqn:Ec.
    + rewrite (main_reaches_loop _ _ _ _ Ed Ec).
      match goal with |- fs (?K ?s0).2 = _ =>
        assert (HK : keeps_fs K); [|exact (HK s0)] end.
      keeps_fs_step; [|keeps_fs_step].
      keeps_fs_step; [apply keeps_fs_while_true|keeps_fs_step].
    + unfold main.
      erewrite bind_run by reflexivity.
      erewrite bind_run by reflexivity.
      erewrite bind_raise; cycle 1.
      { apply load_vector_store_and_index_missing.
        unfold store_missing. cbn [fs with_out]. rewrite Ed. exact Ec. }
      reflexivity.
  - unfold main.
    erewrite bind_run by reflexivity.
    erewrite bind_run by reflexivity.
    erewrite bind_raise; cycle 1.
    { apply load_vector_store_and_index_missing.
      unfold store_missing. cbn [fs with_out]. rewrite Ed. exact I. }
    reflexivity.
Qed.

(** X7: [query_rag.py] writes no collection and nothing outside the
    persistence directory: whatever is typed, however the queries end,
    and whether or not the store is found, every collection holds the
    entries it held before (a missing one stays missing), every other
    directory is as it was, and the persistence directory is there
    afterwards exactly when it was there before. *)
Theorem query_program_never_writes (stdin : list Input) (s : State) :
  let after := (run_script (main stdin) s).2 in
  (∀ h, collection_entries after h = collection_entries s h)
  ∧ (∀ path, path ≠ PERSIST_DIR → fs after !! path = fs s !! path)
  ∧ (is_Some (fs after !! PERSIST_DIR) ↔ is_Some (fs s !! PERSIST_DIR)).
Proof.
  intros after.
  assert (H : fs after = fs s).
  { unfold after. rewrite run_script_fs. apply main_keeps_fs. }
  split; [|split].
  - intros h. unfold collection_entries. rewrite H. reflexivity.
  - intros path _. rewrite H. reflexivity.
  - rewrite H. reflexivity.
Qed.

End ReadOnlyFacts.

Section ExitStatusFacts.

Import Str QueryRag.

Context `{C : Collaborators}.

Lemma raises_only_ret {A : Type} (P : PyExc -> Prop) (a : A) :
  raises_only P (mret a : M A).
Proof. intros s e s' H. discriminate H. Qed.

Lemma raises_only_raise {A : Type} (P : PyExc -> Prop) (e : PyExc) :
  P e → raises_only P (raise e : M A).
Proof. intros He s e' s' [= <- _]. exact He. Qed.

Lemma raises_only_emit (P : PyExc -> Prop) (ev : Event) :
  raises_only P (emit ev).
Proof. intros s e s' H. discriminate H. Qed.

Lemma raises_only_print (P : PyExc -> Prop) (line : string) :
  raises_only P (print line).
Proof. apply raises_only_emit. Qed.

Lemma raises_only_get_state (P : PyExc -> Prop) : raises_only P get_state.
Proof. intros s e s' H. discriminate H. Qed.

(** Sequencing: the continuation need only behave on the values the first
    statement can return. *)
Lemma raises_only_bind {A B : Type} (P : PyExc -> Prop) (Q : A -> Prop)
    (m : M A) (f : A -> M B) :
  raises_only P m →
  (∀ s a s', m s = (inr a, s') → Q a) →
  (∀ a, Q a → raises_only P (f a)) →
  raises_only P (m ≫= f).
Proof.
  intros Hm HQ Hf s e s'. unfold mbind, M_bind.
  destruct (m s) as [[e1|a] s1] eqn:E.
  - intros [= <- _]. by eapply Hm.
  - intros H. eapply Hf; [|exact H]. by eapply HQ.
Qed.

Lemma raises_only_seq {A B : Type} (P : PyExc -> Prop) (m : M A) (f : A -> M B) :
  raises_only P m → (∀ a, raises_only P (f a)) → raises_only P (m ≫= f).
Proof.
  intros Hm Hf. apply (raises_only_bind P (fun _ => True)); auto.
Qed.

Ltac raises_step :=
  first [ apply raises_only_ret | apply raises_only_print
        | apply raises_only_emit | apply raises_only_get_state
        | apply raises_only_raise; first [by left | by right]
        | apply raises_only_seq; [|intros ?] ].

Lemma raises_only_for_token_in (gen : TokenStream) :
  (∀ e, gen.2 = Some e → caught e) →
  raises_only caught (for_token_in gen).
Proof.
  intros H s e s'. rewrite for_token_in_out.
  destruct gen.2 as [e1|]; [|discriminate]. intros [= <- _]. by apply H.
Qed.

Lemma raises_only_print_sources (i : nat) (ns : list NodeWithScore) :
  raises_only caught (print_sources i ns).
Proof.
  revert i. induction ns as [|n ns IH]; intros i; cbn [print_sources].
  - raises_step.
  - do 2 (raises_step; [raises_step|]).
    raises_step; [destruct (node_score n); raises_step|].
    raises_step; [raises_step|]. apply IH.
Qed.

Lemma query_engine_query_from_model (qe : QueryEngine) (text : string)
    (s s' : State) (r : Response) :
  query_engine_query qe text s = (inr r, s') → from_model r.
Proof.
  unfold query_engine_query. erewrite bind_run by reflexivity.
  destruct (embed text) as [e|qv]; [discriminate|].
  erewrite bind_run by reflexivity.
  destruct (collection_entries _ _) as [es|]; [|discriminate].
  erewrite bind_run by reflexivity.
  destruct (streaming qe).
  - intros [= <- _]. by eexists.
  - destruct (generate _) as [tokens [e|]]; [discriminate|].
    intros [= <- _]. exact I.
Qed.

Lemma raises_only_query_engine_query (qe : QueryEngine) (text : string) :
  services_raise_exceptions →
  raises_only caught (query_engine_query qe text).
Proof.
  intros [Hembed Hgen]. unfold query_engine_query.
  raises_step; [raises_step|].
  destruct (embed text) as [e|qv] eqn:E.
  { apply raises_only_raise. left. by eapply Hembed. }
  raises_step; [raises_step|].
  destruct (collection_entries _ _); [|raises_step].
  raises_step; [raises_step|].
  destruct (streaming qe); [raises_step|].
  destruct (generate _) as [tokens [e|]] eqn:Eg; [|raises_step].
  apply raises_only_raise. left. eapply Hgen. by rewrite Eg.
Qed.

Lemma raises_only_loop_try (qe : QueryEngine) (tty : option Input) :
  services_raise_exceptions →
  raises_only caught (loop_try qe tty).
Proof.
  intros Hsrv. unfold loop_try. raises_step.
  { unfold input. raises_step; [raises_step|].
    destruct tty as [[text sigint|]|]; raises_step. }
  destruct a as [user_input sigint].
  destruct (mem _ _); [raises_step|].
  destruct (truthy _).
  2: { raises_step; raises_step. }
  raises_step; [raises_step|].
  apply (raises_only_bind caught from_model).
  { destruct sigint; first [by apply raises_only_query_engine_query|raises_step]. }
  { intros s r s'. destruct sigint; [|discriminate|];
      apply query_engine_query_from_model. }
  intros r Hr.
  raises_step; [raises_step|]. raises_step.
  { destruct r as [gen ns|[t|] ns].
    - raises_step; [|raises_step]. apply raises_only_for_token_in.
      destruct Hr as [prompt ->]. destruct Hsrv as [_ Hgen].
      intros e. unfold interrupted. destruct sigint as [| |n]; cbn [snd fst].
      + intros He. left. by eapply Hgen.
      + intros He. left. by eapply Hgen.
      + destruct (Nat.ltb _ _); cbn [snd].
        * intros [= <-]. by right.
        * destruct (generate prompt).2 as [e1|] eqn:Eg; cbn.
          -- intros [= <-]. left. by eapply Hgen.
          -- intros [= <-]. by right.
    - raises_step; [raises_step|]. destruct (truthy t); raises_step.
    - raises_step; raises_step. }
  do 3 (raises_step; [raises_step|]).
  raises_step.
  { destruct (source_nodes r); [raises_step|apply raises_only_print_sources]. }
  raises_step; raises_step.
Qed.

(** When the services raise instances of [Exception] only, one clause or
    another takes every exception of the [try] block. *)
Lemma loop_body_always_returns (qe : QueryEngine) (tty : option Input)
    (s : State) :
  services_raise_exceptions →
  ∃ ctl s', loop_body qe tty s = (inr ctl, s').
Proof.
  intros Hsrv. unfold loop_body, try_except.
  destruct (loop_try qe tty s) as [[e|ctl] s1] eqn:E; [|by eexists _, _].
  apply (raises_only_loop_try qe tty Hsrv) in E.
  destruct E as [E|E]; destruct e; try discriminate; cbn; by eexists _, _.
Qed.

Lemma while_true_always_returns (qe : QueryEngine) (stdin : list Input)
    (s : State) :
  services_raise_exceptions →
  ∃ s', while_true qe stdin s = (inr tt, s').
Proof.
  intros Hsrv. revert s. induction stdin as [|i rest IH]; intros s;
    cbn [while_true].
  - destruct (loop_body_always_returns qe None s Hsrv) as (ctl & s' & H).
    erewrite bind_run by exact H. by eexists.
  - destruct (loop_body_always_returns qe (Some i) s Hsrv) as (ctl & s' & H).
    erewrite bind_run by exact H. destruct ctl; [apply IH|by eexists].
Qed.

(** X8: Lines 82-137: when the embedding provider and the language model
    fail with instances of [Exception] only, no input, no interrupt and
    no failure of a query makes an exception escape the chat loop: for
    every engine and every session [run_chat_loop] returns, and the last
    line it prints is [Exiting chat.]; the program then goes on to its
    closing line. *)
Theorem chat_loop_always_returns (qe : QueryEngine) (stdin : list Input)
    (s : State) :
  services_raise_exceptions →
  ∃ s',
    run_chat_loop qe stdin s
    = (inr tt, with_out (PrintLine (nl +:+ "Exiting chat.")) s')
    ∧ fs s' = fs s.
Proof.
  intros Hsrv. unfold run_chat_loop.
  erewrite bind_run by reflexivity.
  match goal with |- context [(while_true qe stdin ≫= _) ?s0] =>
    destruct (while_true_always_returns qe stdin s0 Hsrv) as [s' H];
    pose proof (keeps_fs_while_true qe stdin s0) as Hfs end.
  exists s'. erewrite bind_run by exact H.
  rewrite H in Hfs. split; [reflexivity|exact Hfs].
Qed.

End ExitStatusFacts.

Section MoreIngestionFacts.

Import RagIngestion.

Context `{C : Collaborators}.

Lemma load_documents_none (d : Directory) (s : State) :
  fs s !! DATA_DIR = Some d → visible (dir_files d) ≠ [] →
  loaded (dir_files d) = [] →
  ∃ s', load_documents s = (inl (SystemExit 1), s')
        ∧ fs s' = fs s ∧ out s' = out s ++ no_documents_log.
Proof.
  intros E Hvis Hnone. pose proof (visible_nonempty _ Hvis) as Hne.
  unfold load_documents.
  erewrite bind_run by apply os_path_exists_run.
  rewrite bool_decide_eq_true_2 by eauto. cbn [negb].
  erewrite bind_run; cycle 1.
  { erewrite bind_run by (apply os_listdir_run; exact E). reflexivity. }
  destruct (load_data_run d
              (with_out (PrintLine ("Loading documents from " +:+ DATA_DIR +:+ "...")) s))
    as (docs & s1 & Heq & Hfs & Hout & Hc); [exact E|exact Hvis|].
  rewrite Hnone in Hc. apply fmap_nil_inv in Hc. subst docs.
  destruct (dir_files d) as [|f files] eqn:Ef; [done|].
  cbn [fmap list_fmap is_nil].
  erewrite bind_run by reflexivity.
  unfold try_except. erewrite bind_run by exact Heq. cbn [is_nil].
  eexists. split; [reflexivity|]. split; [exact Hfs|].
  unfold mbind, M_bind, print, emit, sys_exit, raise, with_out.
  cbn [snd fst out]. rewrite Hout. cbn [out with_out].
  unfold with_out. cbn [out]. rewrite <- !app_assoc. reflexivity.
Qed.

(** X9: Lines 57-60: when the source directory holds files that are not
    hidden but the loader returns no document for any of them, the run
    stops with status 1 and the notice that no document was found; by
    then the store has been wiped and holds only the empty collection. *)
Theorem no_document_loaded_exits (s : State) (d : Directory) :
  fs s !! DATA_DIR = Some d →
  visible (dir_files d) ≠ [] →
  loaded (dir_files d) = [] →
  let r := run_script main s in
  r.1 = 1
  ∧ fs r.2 = <[PERSIST_DIR := fresh_store]> (fs s)
  ∧ out r.2 = out s ++ start_log
              ++ wipe_log (bool_decide (is_Some (fs s !! PERSIST_DIR)))
              ++ no_documents_log.
Proof.
  intros E Hne Hnone r. unfold r, run_script, main.
  erewrite bind_run by reflexivity.
  erewrite bind_run by reflexivity.
  erewrite bind_run by apply initialize_vector_store_run.
  match goal with |- context [(load_documents ≫= _) ?s1] =>
    destruct (load_documents_none d s1) as (s2 & Hload & Hfs & Hout) end.
  { cbn [fs]. rewrite lookup_insert_ne by apply data_dir_not_persist_dir.
    exact E. }
  { exact Hne. }
  { exact Hnone. }
  erewrite bind_raise by exact Hload. cbn [fst snd].
  split; [reflexivity|]. split; [rewrite Hfs; reflexivity|].
  rewrite Hout. cbn [out with_out]. unfold with_out, start_log. cbn [out].
  rewrite <- !app_assoc. reflexivity.
Qed.

(** X14: Lines 61-64: when the source directory lists entries but every
    one of them is hidden, the loader finds no file and raises
    [ValueError]; the run reports the loader's message after
    [Error loading documents:], asks for readable files and stops with
    status 1, the store already wiped. *)
Theorem hidden_files_only_exits (s : State) (d : Directory) :
  fs s !! DATA_DIR = Some d →
  dir_files d ≠ [] →
  visible (dir_files d) = [] →
  let r := run_script main s in
  r.1 = 1
  ∧ fs r.2 = <[PERSIST_DIR := fresh_store]> (fs s)
  ∧ ∃ msg, out r.2 = out s ++ start_log
                     ++ wipe_log (bool_decide (is_Some (fs s !! PERSIST_DIR)))
                     ++ loader_error_log msg.
Proof.
  intros E Hne Hvis r. unfold r, run_script, main.
  erewrite bind_run by reflexivity.
  erewrite bind_run by reflexivity.
  erewrite bind_run by apply initialize_vector_store_run.
  erewrite bind_raise; cycle 1.
  { apply (load_documents_hidden d); [|exact Hne|exact Hvis].
    cbn [fs]. rewrite lookup_insert_ne by apply data_dir_not_persist_dir.
    exact E. }
  cbn [fst snd fs out]. split; [reflexivity|]. split; [reflexivity|].
  eexists. unfold with_out, start_log. cbn [out].
  rewrite <- !app_assoc. reflexivity.
Qed.

(** X10: Lines 81-92: when the source directory yields at least one document
    and every embedding succeeds, the run reaches its end: it returns
    normally (status 0), its last lines are the three completion lines,
    and the collection holds the embedded nodes, in order. *)
Theorem ingestion_completes (s : State) (d : Directory)
    (cs : list (Vector * string * gmap string string)) :
  fs s !! DATA_DIR = Some d →
  loaded (dir_files d) ≠ [] →
  embedded (parsed (loaded (dir_files d))) = inr cs →
  ∃ s' es log,
    main s = (inr tt, s')
    ∧ run_script main s = (0, s')
    ∧ out s' = log ++ completion_log
    ∧ collection_entries s' (PERSIST_DIR, COLLECTION_NAME) = Some es
    ∧ entry_content <$> es = cs.
Proof.
  intros E Hdocs Hemb.
  assert (Hvis : visible (dir_files d) ≠ []).
  { intros H. apply Hdocs. unfold loaded. rewrite H. reflexivity. }
  assert (Hmain : ∃ s4 es, main s
            = (inr tt,
               with_out (PrintLine "You can now run query_rag.py to chat with your documents.")
                 (with_out (PrintLine ("Data ingested into ChromaDB at " +:+ PERSIST_DIR
                     +:+ " using collection '" +:+ COLLECTION_NAME +:+ "'."))
                    (with_out (PrintLine "--- RAG Ingestion Process Complete ---") s4)))
            ∧ fs s4 = <[PERSIST_DIR := store_of es]> (fs s)
            ∧ entry_content <$> es = cs).
  { unfold main.
    erewrite bind_run by reflexivity.
    erewrite bind_run by reflexivity.
    erewrite bind_run by apply initialize_vector_store_run.
    match goal with |- context [(load_documents ≫= _) ?s1] =>
      destruct (load_documents_present d s1) as (s2 & Hfs2 & Hload) end.
    { cbn [fs]. rewrite lookup_insert_ne by apply data_dir_not_persist_dir.
      exact E. }
    { exact Hvis. }
    destruct (loaded (dir_files d)) as [|b bs] eqn:El; [done|].
    destruct Hload as (docs & Hload & Hc).
    erewrite bind_run by exact Hload.
    pose proof (ingest_documents_run docs s2 (fs s)) as Hing.
    rewrite Hc, Hemb in Hing.
    destruct Hing as (es & s4 & Hing & Hfs4 & Hes); [rewrite Hfs2; reflexivity|].
    erewrite bind_run by exact Hing.
    exists s4, es. split; [reflexivity|]. split; [exact Hfs4|exact Hes]. }
  destruct Hmain as (s4 & es & Hmain & Hfs4 & Hes).
  eexists _, es, (out s4). split; [exact Hmain|].
  split; [unfold run_script; rewrite Hmain; reflexivity|].
  split.
  { unfold with_out, completion_log. cbn [out]. rewrite <- !app_assoc.
    reflexivity. }
  split; [|exact Hes].
  eapply collection_entries_store_of. cbn [fs with_out]. exact Hfs4.
Qed.

(** X11: The two scripts agree on the directory and on the collection, and
    [initialize_vector_store] runs before any check: after an ingestion
    run, completed or not, the query program finds the store and does not
    stop at its start-up checks. *)
Theorem query_finds_store_after_ingestion (s : State) :
  let after := (run_script main s).2 in
  ¬ QueryRag.store_missing after
  ∧ ∃ s', QueryRag.load_vector_store_and_index after
          = (inr (QueryRag.PERSIST_DIR, QueryRag.COLLECTION_NAME), s').
Proof.
  intros after.
  destruct (main_run s) as (r & es & s1 & Hrun & Hfs & _).
  assert (Hafter : fs after = <[PERSIST_DIR := store_of es]> (fs s)).
  { unfold after. rewrite run_script_fs, Hrun. exact Hfs. }
  assert (Hd : fs after !! QueryRag.PERSIST_DIR = Some (store_of es)).
  { rewrite Hafter. apply lookup_insert_eq. }
  assert (Hc : dir_collections (store_of es) !! QueryRag.COLLECTION_NAME = Some es).
  { apply lookup_singleton_eq. }
  split.
  - unfold QueryRag.store_missing. rewrite Hd, Hc. discriminate.
  - eexists. eapply load_vector_store_and_index_run; [exact Hd|exact Hc].
Qed.

End MoreIngestionFacts.

Section BrokenStreamFacts.

Import Str QueryRag.

Context `{C : Collaborators}.

(** X12: Lines 98-99 and 133-136: when the stream of the answer to a query
    line of ASCII characters breaks with an error (an [Exception] other
    than [EOFError]), the tokens that arrived stay on the terminal,
    followed by the diagnostic and the stack trace; the sources are not
    listed, and the loop goes on to the next line. *)
Theorem broken_stream_output (qe : QueryEngine) (text : string)
    (s s1 : State) (tokens : list string) (e : PyExc)
    (ns : list NodeWithScore) :
  ascii_only text = true →
  mem (lower text) ["quit"; "exit"] = false →
  truthy (strip text) = true →
  query_engine_query qe text
    (with_out (PrintLine (nl +:+ "Querying with: '" +:+ text +:+ "'..."))
       (with_out (WriteText "You: ") s))
  = (inr (StreamingResponse (tokens, Some e) ns), s1) →
  is_Exception e = true → e ≠ EOFError →
  loop_body qe (Some (Line text NoInterrupt)) s
  = (inr Continue,
     {| fs := fs s1; uuid := uuid s1;
        out := out s1
               ++ [PrintLine (nl +:+ "--- Assistant Response ---")]
               ++ (WriteText <$> tokens)
               ++ [PrintLine (nl +:+ "An error occurred: " +:+ str_exc e);
                   Traceback e] |}).
Proof.
  intros _ Hmem Htext Hq He Hne.
  assert (Htry : loop_try qe (Some (Line text NoInterrupt)) s
            = (inl e, {| fs := fs s1; uuid := uuid s1;
                 out := out s1 ++ [PrintLine (nl +:+ "--- Assistant Response ---")]
                        ++ (WriteText <$> tokens) |})).
  { unfold loop_try, input.
    erewrite bind_run by reflexivity. cbn beta iota. rewrite Hmem, Htext.
    erewrite bind_run by reflexivity.
    erewrite bind_run by exact Hq.
    erewrite bind_run by reflexivity.
    erewrite bind_raise; cycle 1.
    { erewrite bind_raise; [reflexivity|]. rewrite for_token_in_out.
      reflexivity. }
    unfold with_out. cbn [fs uuid out interrupted fst snd].
    rewrite <- !app_assoc. reflexivity. }
  rewrite (loop_body_raises _ _ _ _ _ Htry).
  destruct e; try done; cbn [loop_except is_Exception];
    unfold mbind, M_bind, print, emit, mret, M_ret, with_out;
    cbn [fs uuid out]; rewrite <- !app_assoc; reflexivity.
Qed.

End BrokenStreamFacts.

Section EndToEndFacts.

Context `{C : Collaborators}.

(** X13: Ingestion and query together: after a run of [rag_ingestion.py]
    that reached its end, [load_vector_store_and_index] of [query_rag.py]
    returns the collection, and with the engine that
    [create_query_engine] builds on it every query that is answered
    returns [min 3 n] sources, for [n] the number of chunks the node
    parser cut the loaded documents into. *)
Theorem sources_after_ingestion (s s1 : State) (d : Directory) :
  fs s !! RagIngestion.DATA_DIR = Some d →
  RagIngestion.main s = (inr tt, s1) →
  ∃ s2,
    QueryRag.load_vector_store_and_index s1
    = (inr (QueryRag.PERSIST_DIR, QueryRag.COLLECTION_NAME), s2)
    ∧ ∀ qe s3,
        QueryRag.create_query_engine
          (QueryRag.PERSIST_DIR, QueryRag.COLLECTION_NAME) s2 = (inr qe, s3) →
        ∀ text r s4,
          query_engine_query qe text s3 = (inr r, s4) →
          length (source_nodes r)
          = Nat.min 3 (length (parsed (loaded (dir_files d)))).
Proof.
  intros Hd Hrun.
  destruct (main_run s) as (r0 & es & s1' & Hrun' & Hfs & _ & Hdone).
  rewrite Hrun in Hrun'. injection Hrun' as <- <-.
  destruct (Hdone tt eq_refl) as (d' & Hd' & _ & Hemb).
  rewrite Hd in Hd'. injection Hd' as <-.
  assert (Hlen : length es = length (parsed (loaded (dir_files d)))).
  { apply embedded_length in Hemb. rewrite length_fmap in Hemb. exact Hemb. }
  assert (Hdir : fs s1 !! QueryRag.PERSIST_DIR = Some (RagIngestion.store_of es)).
  { rewrite Hfs. apply lookup_insert_eq. }
  assert (Hcol : dir_collections (RagIngestion.store_of es)
                   !! QueryRag.COLLECTION_NAME = Some es).
  { apply lookup_singleton_eq. }
  eexists. split.
  { eapply load_vector_store_and_index_run; [exact Hdir|exact Hcol]. }
  intros qe s3 Hqe text r s4 Hq.
  rewrite create_query_engine_run in Hqe. injection Hqe as <- <-.
  apply query_engine_query_nodes in Hq as (qv & es' & _ & Hes' & ->).
  cbn [engine_index similarity_top_k] in *.
  erewrite collection_entries_store_of in Hes'; [|cbn [fs with_out]; exact Hfs].
  injection Hes' as <-. rewrite length_retrieve, Hlen. reflexivity.
Qed.

End EndToEndFacts.

(** ** The further properties on concrete sessions *)

Lemma blank_line_reprompts_witness :
  let s := Demo.populated Demo.four_entries in
  let rest := [Line Demo.question NoInterrupt] in
  let s1 :=
    with_out (PrintLine "Please enter a prompt.")
      (with_out (WriteText "You: ") s) in
  Str.all_space "   " = true
  ∧ QueryRag.loop_body Demo.engine (Some (Line "   " NoInterrupt)) s
    = (inr Continue, s1)
  ∧ QueryRag.while_true Demo.engine (Line "   " NoInterrupt :: rest) s
    = QueryRag.while_true Demo.engine rest s1.
Proof.
  intros s rest s1. split; [reflexivity|].
  exact (blank_line_reprompts Demo.engine "   " NoInterrupt rest s eq_refl).
Defined.

Lemma demo_sources_scored :
  Forall (fun n : @NodeWithScore Demo.collaborators => is_Some (node_score n))
    Demo.sources.
Proof. repeat constructor; by eexists. Defined.

Lemma sources_are_listed_in_order_witness :
  let s := Demo.populated Demo.four_entries in
  Forall (fun n : @NodeWithScore Demo.collaborators => is_Some (node_score n))
    Demo.sources
  ∧ QueryRag.print_sources 0 Demo.sources s
    = (inr tt, {| fs := fs s; uuid := uuid s;
                  out := out s ++ source_log 0 Demo.sources |})
  ∧ length (source_log 0 Demo.sources) = (4 * length Demo.sources)%nat.
Proof.
  intros s. split; [exact demo_sources_scored|].
  exact (sources_are_listed_in_order 0 Demo.sources s demo_sources_scored).
Defined.

Lemma answered_query_output_witness :
  let s := Demo.populated Demo.four_entries in
  let s0 :=
    with_out (PrintLine (Str.nl +:+ "Querying with: '" +:+ Demo.question +:+ "'..."))
      (with_out (WriteText "You: ") s) in
  let s1 := (query_engine_query Demo.engine Demo.question s0).2 in
  query_engine_query Demo.engine Demo.question s0
  = (inr (StreamingResponse (["Rub"; " sticks"], None) Demo.sources), s1)
  ∧ QueryRag.loop_body Demo.engine (Some (Line Demo.question NoInterrupt)) s
    = (inr Continue,
       {| fs := fs s1; uuid := uuid s1;
          out := out s1 ++ answer_log ["Rub"; " sticks"] Demo.sources |}).
Proof.
  intros s s0 s1.
  assert (H : query_engine_query Demo.engine Demo.question s0
              = (inr (StreamingResponse (["Rub"; " sticks"], None) Demo.sources), s1))
    by (vm_compute; reflexivity).
  split; [exact H|].
  apply (answered_query_output Demo.engine Demo.question s s1
           ["Rub"; " sticks"] Demo.sources);
    [reflexivity|reflexivity|reflexivity|exact H].
Defined.

Lemma broken_stream_output_witness :
  let s := Faulty.populated in
  let e := RuntimeError "connection lost" in
  let s0 :=
    with_out (PrintLine (Str.nl +:+ "Querying with: '" +:+ Demo.question +:+ "'..."))
      (with_out (WriteText "You: ") s) in
  let s1 := (query_engine_query Faulty.engine Demo.question s0).2 in
  query_engine_query Faulty.engine Demo.question s0
  = (inr (StreamingResponse (["Rub"], Some e) [Faulty.fire_source]), s1)
  ∧ QueryRag.loop_body Faulty.engine (Some (Line Demo.question NoInterrupt)) s
    = (inr Continue,
       {| fs := fs s1; uuid := uuid s1;
          out := out s1
                 ++ [PrintLine (Str.nl +:+ "--- Assistant Response ---")]
                 ++ (WriteText <$> ["Rub"])
                 ++ [PrintLine (Str.nl +:+ "An error occurred: " +:+ str_exc e);
                     Traceback e] |}).
Proof.
  intros s e s0 s1.
  assert (H : query_engine_query Faulty.engine Demo.question s0
              = (inr (StreamingResponse (["Rub"], Some e) [Faulty.fire_source]), s1))
    by (vm_compute; reflexivity).
  split; [exact H|].
  apply (broken_stream_output Faulty.engine Demo.question s s1 ["Rub"] e
           [Faulty.fire_source]);
    [reflexivity|reflexivity|reflexivity|exact H|reflexivity|discriminate].
Defined.

Lemma blank_session_ends_at_eof_witness :
  let s := Demo.populated Demo.four_entries in
  let lines := [EmptyString; "  "] in
  let log :=
    [PrintLine (Str.nl +:+ "Starting RAG chat. Type 'quit' or 'exit' to end.")]
    ++ blank_log (length lines) ++ eof_log in
  Forall (fun l => Str.all_space l = true) lines
  ∧ QueryRag.run_chat_loop Demo.engine
      ((fun l => Line l NoInterrupt) <$> lines) s
    = (inr tt, {| fs := fs s; uuid := uuid s; out := out s ++ log |})
  ∧ existsb QueryRag.is_query_event log = false.
Proof.
  intros s lines log.
  assert (H : Forall (fun l => Str.all_space l = true) lines)
    by (repeat constructor).
  split; [exact H|].
  exact (blank_session_ends_at_eof Demo.engine lines s H).
Defined.

Lemma demo_services_raise_exceptions :
  @services_raise_exceptions Demo.collaborators.
Proof.
  split.
  - intros text e. cbn [embed Demo.collaborators].
    destruct (Demo.embed_failure text) as [e'|] eqn:E; [|discriminate].
    intros [= <-]. destruct text as [|c text]; [discriminate|].
    destruct c as [[] [] [] [] [] [] [] []]; cbn in E;
      first [discriminate | injection E as <-; reflexivity].
  - intros prompt e. cbn. discriminate.
Defined.

Lemma chat_loop_always_returns_witness :
  let s := Demo.populated Demo.four_entries in
  let stdin := [Line "?how" NoInterrupt; Line Demo.question (DuringStream 1);
                Line "never read" NoInterrupt] in
  @services_raise_exceptions Demo.collaborators
  ∧ ∃ s',
      QueryRag.run_chat_loop Demo.engine stdin s
      = (inr tt, with_out (PrintLine (Str.nl +:+ "Exiting chat.")) s')
      ∧ fs s' = fs s.
Proof.
  intros s stdin. split; [exact demo_services_raise_exceptions|].
  exact (chat_loop_always_returns Demo.engine stdin s
           demo_services_raise_exceptions).
Defined.

Lemma no_document_loaded_exits_witness :
  let s := Faulty.data_only in
  let d : @Directory Faulty.collaborators := {| dir_files := [Demo.fire; Demo.water]; dir_collections := ∅ |} in
  let r := run_script RagIngestion.main s in
  fs s !! RagIngestion.DATA_DIR = Some d
  ∧ @loaded Faulty.collaborators (dir_files d) = []
  ∧ r.1 = 1
  ∧ fs r.2 = <[RagIngestion.PERSIST_DIR := RagIngestion.fresh_store]> (fs s)
  ∧ out r.2 = out s ++ RagIngestion.start_log
              ++ RagIngestion.wipe_log
                   (bool_decide (is_Some (fs s !! RagIngestion.PERSIST_DIR)))
              ++ no_documents_log.
Proof.
  intros s d r.
  assert (H1 : fs s !! RagIngestion.DATA_DIR = Some d) by (vm_compute; reflexivity).
  assert (H2 : @loaded Faulty.collaborators (dir_files d) = []) by reflexivity.
  split; [exact H1|]. split; [exact H2|].
  apply (no_document_loaded_exits s d H1); [discriminate|exact H2].
Defined.

Lemma hidden_files_only_exits_witness :
  let s := Demo.hidden_only in
  let d : @Directory Demo.collaborators :=
    {| dir_files := [Demo.ds_store]; dir_collections := ∅ |} in
  let r := run_script RagIngestion.main s in
  fs s !! RagIngestion.DATA_DIR = Some d
  ∧ visible (dir_files d) = []
  ∧ r.1 = 1
  ∧ fs r.2 = <[RagIngestion.PERSIST_DIR := RagIngestion.fresh_store]> (fs s)
  ∧ ∃ msg, out r.2 = out s ++ RagIngestion.start_log
                     ++ RagIngestion.wipe_log
                          (bool_decide (is_Some (fs s !! RagIngestion.PERSIST_DIR)))
                     ++ RagIngestion.loader_error_log msg.
Proof.
  intros s d r.
  assert (H1 : fs s !! RagIngestion.DATA_DIR = Some d) by (vm_compute; reflexivity).
  assert (H2 : visible (dir_files d) = []) by reflexivity.
  split; [exact H1|]. split; [exact H2|].
  apply (hidden_files_only_exits s d H1); [discriminate|exact H2].
Defined.

Lemma ingestion_completes_witness :
  let s := Demo.data_only in
  let d : @Directory Demo.collaborators := {| dir_files := [Demo.fire; Demo.water]; dir_collections := ∅ |} in
  let cs : list (@Vector Demo.collaborators * string * gmap string string) :=
            [(52%nat, file_bytes Demo.fire, {[ "file_name" := "fire.txt" ]});
             (27%nat, file_bytes Demo.water, {[ "file_name" := "water.txt" ]})] in
  fs s !! RagIngestion.DATA_DIR = Some d
  ∧ @embedded Demo.collaborators
      (@parsed Demo.collaborators (@loaded Demo.collaborators (dir_files d)))
    = inr cs
  ∧ ∃ s' es log,
      RagIngestion.main s = (inr tt, s')
      ∧ run_script RagIngestion.main s = (0, s')
      ∧ out s' = log ++ completion_log
      ∧ collection_entries s'
          (RagIngestion.PERSIST_DIR, RagIngestion.COLLECTION_NAME) = Some es
      ∧ entry_content <$> es = cs.
Proof.
  intros s d cs.
  assert (H1 : fs s !! RagIngestion.DATA_DIR = Some d) by (vm_compute; reflexivity).
  assert (H2 : @embedded Demo.collaborators
      (@parsed Demo.collaborators (@loaded Demo.collaborators (dir_files d)))
    = inr cs)
    by (vm_compute; reflexivity).
  split; [exact H1|]. split; [exact H2|].
  apply (ingestion_completes s d cs H1); [discriminate|exact H2].
Defined.

Lemma sources_after_ingestion_witness :
  let s := Chunky.one_file in
  let d : @Directory Chunky.collaborators :=
    {| dir_files := [Demo.fire]; dir_collections := ∅ |} in
  let s1 := (RagIngestion.main s).2 in
  fs s !! RagIngestion.DATA_DIR = Some d
  ∧ RagIngestion.main s = (inr tt, s1)
  ∧ ∃ s2,
      QueryRag.load_vector_store_and_index s1
      = (inr (QueryRag.PERSIST_DIR, QueryRag.COLLECTION_NAME), s2)
      ∧ ∀ qe s3,
          QueryRag.create_query_engine
            (QueryRag.PERSIST_DIR, QueryRag.COLLECTION_NAME) s2 = (inr qe, s3) →
          ∀ text r s4,
            query_engine_query qe text s3 = (inr r, s4) →
            length (source_nodes r) = 2%nat.
Proof.
  intros s d s1.
  assert (H1 : fs s !! RagIngestion.DATA_DIR = Some d) by (vm_compute; reflexivity).
  assert (H2 : RagIngestion.main s = (inr tt, s1)) by (vm_compute; reflexivity).
  split; [exact H1|]. split; [exact H2|].
  exact (sources_after_ingestion s s1 d H1 H2).
Defined.

(** After the ingestion of the two files, the question retrieves both. *)
Example two_files_two_sources :
  let s1 := (RagIngestion.main Demo.data_only).2 in
  match (query_engine_query Demo.engine Demo.question s1).1 with
  | inr r => node_text <$> source_nodes r
             = [file_bytes Demo.water; file_bytes Demo.fire]
  | inl _ => False
  end.
Proof. vm_compute. reflexivity. Qed.
